(** * Image-processing-api: the grayscale pipeline of [server.js]

    A shallow embedding of the upload filter, the pixel loop of
    [processImage], the three request handlers and the part of Node's
    [path] and [fs] modules they call, followed by the properties of the
    specification that can be settled on it. *)

From Stdlib Require Import ZArith List Bool Ascii String Lia.
From Stdlib Require Import Floats.SpecFloat.
From stdpp Require Import base tactics option list strings gmap pretty.

Local Open Scope Z_scope.

(* ================================================================== *)
(** ** JavaScript numbers *)
(* ================================================================== *)

(** A JavaScript number is an IEEE 754 binary64 value.  The arithmetic is
    the executable specification of the standard library, at precision 53
    and maximal exponent 1024. *)
Module JSNumber.

Definition prec : Z := 53.
Definition emax : Z := 1024.

Definition number := spec_float.

(** The number denoted by an integer literal or an integer element. *)
Definition of_int (z : Z) : number := binary_normalize prec emax z 0 false.

(** [x + y] and [x / y] on numbers. *)
Definition add (x y : number) : number := SFadd prec emax x y.
Definition div (x y : number) : number := SFdiv prec emax x y.

(** Reading an element of a typed array gives an integer, or [undefined]
    (here [None]) out of range; [ToNumber(undefined)] is [NaN]. *)
Definition ToNumber (v : option Z) : number :=
  match v with
  | Some z => of_int z
  | None => S754_nan
  end.

(** [ToUint8Clamp] of ECMAScript, the conversion applied by a store into
    a [Uint8ClampedArray]: NaN gives 0, the value is clamped to [0,255]
    and rounded to the nearest integer, ties to the even one.  A finite
    positive number is [m * 2^e]. *)
Definition ToUint8Clamp (x : number) : Z :=
  match x with
  | S754_nan => 0
  | S754_zero _ => 0
  | S754_infinity s => if s then 0 else 255
  | S754_finite true _ _ => 0
  | S754_finite false m e =>
      if 0 <=? e then
        let v := Z.pos m * 2 ^ e in
        if 255 <? v then 255 else v
      else
        let d := 2 ^ (- e) in
        if 255 * d <=? Z.pos m then 255
        else
          let f := Z.pos m / d in
          match (2 * (Z.pos m mod d)) ?= d with
          | Lt => f
          | Gt => f + 1
          | Eq => if Z.even f then f else f + 1
          end
  end.

(** Structural equality of numbers, used to check identities of the
    arithmetic on finite ranges. *)
Definition same (x y : number) : bool :=
  match x, y with
  | S754_zero s, S754_zero t => Bool.eqb s t
  | S754_infinity s, S754_infinity t => Bool.eqb s t
  | S754_nan, S754_nan => true
  | S754_finite s m e, S754_finite t n f =>
      Bool.eqb s t && Pos.eqb m n && Z.eqb e f
  | _, _ => false
  end.

End JSNumber.

(* ================================================================== *)
(** ** The pixel loop of [processImage] *)
(* ================================================================== *)

(** [imageData.data] is a [Uint8ClampedArray]: a list of integers, each in
    [0,255], four per pixel in the order R, G, B, A. *)
Definition byte_ok (b : Z) : Prop := 0 <= b <= 255.

(** [(data[i] + data[i + 1] + data[i + 2]) / 3] *)
Definition avg_at (data : list Z) (i : nat) : JSNumber.number :=
  JSNumber.div
    (JSNumber.add
       (JSNumber.add (JSNumber.ToNumber (data !! i))
                     (JSNumber.ToNumber (data !! (i + 1)%nat)))
       (JSNumber.ToNumber (data !! (i + 2)%nat)))
    (JSNumber.of_int 3).

(** [data[i] = v]: the number is converted by [ToUint8Clamp]; a store
    outside the array is ignored. *)
Definition store (data : list Z) (i : nat) (v : JSNumber.number) : list Z :=
  <[ i := JSNumber.ToUint8Clamp v ]> data.

(** One iteration of the body of the loop, at index [i]. *)
Definition gray_body (data : list Z) (i : nat) : list Z :=
  let avg := avg_at data i in
  let data := store data i avg in
  let data := store data (i + 1) avg in
  store data (i + 2) avg.

(** [for (let i = 0; i < data.length; i += 4) { ... }], with a bound on
    the number of iterations. *)
Fixpoint gray_loop (fuel : nat) (i : nat) (data : list Z) : list Z :=
  match fuel with
  | O => data
  | S fuel =>
      if decide (i < length data)%nat
      then gray_loop fuel (i + 4) (gray_body data i)
      else data
  end.

(** The loop run from [i = 0]; one iteration per started group of four
    elements, so [length data] iterations are never exhausted. *)
Definition grayscale (data : list Z) : list Z :=
  gray_loop (length data) 0 data.

(** [ImageData]: the object returned by [getImageData] and handed back to
    [putImageData]; the loop mutates [data] only. *)
Record ImageData := { width : nat; height : nat; data : list Z }.

Definition grayscale_image (img : ImageData) : ImageData :=
  {| width := width img; height := height img; data := grayscale (data img) |}.

(** The buffer invariant of the specification. *)
Definition valid_buffer (img : ImageData) : Prop :=
  (0 < width img)%nat /\ (0 < height img)%nat /\
  length (data img) = (width img * height img * 4)%nat /\
  Forall byte_ok (data img).

(* ================================================================== *)
(** ** JavaScript strings *)
(* ================================================================== *)

(** Strings are sequences of bytes.  The patterns of [server.js] mention
    ASCII letters only, and neither [toLowerCase] nor the [i] flag ever
    maps a character outside ASCII to one of them, so the bytes of such a
    character are left as they are. *)
Module JSString.

Definition lower_char (c : ascii) : ascii :=
  let n := nat_of_ascii c in
  if (65 <=? n)%nat && (n <=? 90)%nat then ascii_of_nat (n + 32) else c.

(** [s.toLowerCase()] *)
Fixpoint toLowerCase (s : string) : string :=
  match s with
  | EmptyString => EmptyString
  | String c s' => String (lower_char c) (toLowerCase s')
  end.

(** [s.split(sep)] for a one-character separator: never empty. *)
Fixpoint split (sep : ascii) (s : string) : list string :=
  match s with
  | EmptyString => [EmptyString]
  | String c s' =>
      if Ascii.eqb c sep then EmptyString :: split sep s'
      else match split sep s' with
           | seg :: rest => String c seg :: rest
           | [] => [String c EmptyString]
           end
  end.

(** [s.split(sep)[0]] *)
Definition split_first (sep : ascii) (s : string) : string :=
  hd EmptyString (split sep s).

(** [s.includes(t)]: [t] occurs somewhere in [s]. *)
Definition includes (t s : string) : bool :=
  match index 0 t s with
  | Some _ => true
  | None => false
  end.

(** [s.endsWith(t)] *)
Fixpoint endsWith (t s : string) : bool :=
  String.eqb t s ||
  match s with
  | EmptyString => false
  | String _ s' => endsWith t s'
  end.

(** [s.slice(from, to)] for [0 <= from <= to]. *)
Definition slice (from to : nat) (s : string) : string :=
  substring from (to - from) s.

(** The decimal text of a non-negative integer, as in
    [Date.now() + '-' + ...]. *)
Definition of_number (n : N) : string := pretty n.

End JSString.

(* ================================================================== *)
(** ** Node's [path] module (POSIX) *)
(* ================================================================== *)

Module Path.

(** Segments put back together with ['/'] between them. *)
Fixpoint join_segments (segs : list string) : string :=
  match segs with
  | [] => EmptyString
  | [s] => s
  | s :: rest => s +:+ "/" +:+ join_segments rest
  end.

(** One step of [normalizeString]: [res] is the stack of segments kept
    so far, the last one first.  Empty and ["."] segments are dropped;
    [".."] removes the segment before it, or is kept when there is none
    to remove and the path is relative. *)
Definition push_segment (allowAboveRoot : bool)
    (res : list string) (seg : string) : list string :=
  if decide (seg = "") then res
  else if decide (seg = ".") then res
  else if decide (seg = "..") then
    match res with
    | [] => if allowAboveRoot then [".."] else []
    | last :: res' =>
        if decide (last = "..")
        then (if allowAboveRoot then ".." :: res else res)
        else res'
    end
  else seg :: res.

Definition normalizeString (path : string) (allowAboveRoot : bool) : string :=
  join_segments
    (rev (fold_left (push_segment allowAboveRoot) (JSString.split "/" path) [])).

Definition starts_with_slash (p : string) : bool :=
  match p with
  | String c _ => Ascii.eqb c "/"
  | EmptyString => false
  end.

(** [path.normalize(p)] *)
Definition normalize (p : string) : string :=
  if decide (p = "") then "."
  else
    let isAbsolute := starts_with_slash p in
    let trailingSeparator := JSString.endsWith "/" p in
    let q := normalizeString p (negb isAbsolute) in
    if decide (q = "") then
      (if isAbsolute then "/" else if trailingSeparator then "./" else ".")
    else
      let q := if trailingSeparator then q +:+ "/" else q in
      if isAbsolute then "/" +:+ q else q.

(** [path.join(a, b)]: empty arguments are skipped. *)
Definition join (a b : string) : string :=
  if decide (a = "") then
    (if decide (b = "") then "." else normalize b)
  else if decide (b = "") then normalize a
  else normalize (a +:+ "/" +:+ b).

(** [path.dirname(p)] of a normalized relative path: the path without
    its last segment. *)
Definition dirname (p : string) : string :=
  match removelast (JSString.split "/" p) with
  | [] => "."
  | segs => join_segments segs
  end.

(** The variables of the scan of [path.extname]. *)
Record ext_state := {
  startDot : Z;
  startPart : Z;
  end_ : Z;
  matchedSlash : bool;
  preDotState : Z
}.

(** The loop [for (let i = path.length - 1; i >= 0; --i)] of [extname];
    [n] is [i + 1]. *)
Fixpoint extname_scan (path : string) (n : nat) (st : ext_state) : ext_state :=
  match n with
  | O => st
  | S i =>
      match String.get i path with
      | None => st
      | Some code =>
          if Ascii.eqb code "/" then
            if negb (matchedSlash st) then
              {| startDot := startDot st; startPart := Z.of_nat i + 1;
                 end_ := end_ st; matchedSlash := matchedSlash st;
                 preDotState := preDotState st |}
            else extname_scan path i st
          else
            let st1 :=
              if end_ st =? -1 then
                {| startDot := startDot st; startPart := startPart st;
                   end_ := Z.of_nat i + 1; matchedSlash := false;
                   preDotState := preDotState st |}
              else st in
            let st2 :=
              if Ascii.eqb code "." then
                if startDot st1 =? -1 then
                  {| startDot := Z.of_nat i; startPart := startPart st1;
                     end_ := end_ st1; matchedSlash := matchedSlash st1;
                     preDotState := preDotState st1 |}
                else if negb (preDotState st1 =? 1) then
                  {| startDot := startDot st1; startPart := startPart st1;
                     end_ := end_ st1; matchedSlash := matchedSlash st1;
                     preDotState := 1 |}
                else st1
              else if negb (startDot st1 =? -1) then
                {| startDot := startDot st1; startPart := startPart st1;
                   end_ := end_ st1; matchedSlash := matchedSlash st1;
                   preDotState := -1 |}
              else st1 in
            extname_scan path i st2
      end
  end.

(** [path.extname(p)] *)
Definition extname (p : string) : string :=
  let st :=
    extname_scan p (String.length p)
      {| startDot := -1; startPart := 0; end_ := -1;
         matchedSlash := true; preDotState := 0 |} in
  if (startDot st =? -1) || (end_ st =? -1) || (preDotState st =? 0) ||
     ((preDotState st =? 1) && (startDot st =? end_ st - 1) &&
      (startDot st =? startPart st + 1))
  then EmptyString
  else JSString.slice (Z.to_nat (startDot st)) (Z.to_nat (end_ st)) p.

End Path.

(* ================================================================== *)
(** ** The file system and the canvas library *)
(* ================================================================== *)

(** A regular file: its bytes and its creation time. *)
Record file := { content : list Z; birthtime : N }.

(** The file system seen by the server: the regular files by path, and
    the directories by path, each with its creation time.  A path is a
    key as it stands: every path that [server.js] hands to [fs] is a
    literal or a result of [path.join]; only a trailing ['/'], which
    [path.join] keeps, is dropped when a directory is looked up.  No path
    names both a file and a directory; where both maps are asked, the
    file is looked at first. *)
Record FS := { files : gmap string file; dir_times : gmap string N }.

(** The directories that exist. *)
Definition dirs (d : FS) : gset string := dom (dir_times d).

(** What a failing call throws. *)
Inductive exn :=
  | ENOENT (path : string)
  | EISDIR (path : string)
  | DecodeFailure
  | EncodeFailure.

(** [err.message]: Node's messages for [fs] errors begin with the error
    code; the two texts of the canvas library are stand-ins, nothing
    depends on them. *)
Definition message (e : exn) : string :=
  match e with
  | ENOENT p => "ENOENT: no such file or directory, " +:+ p
  | EISDIR p => "EISDIR: illegal operation on a directory, " +:+ p
  | DecodeFailure => "Unsupported image type"
  | EncodeFailure => "Failed to encode image"
  end.

(** Calls into the canvas library and writes to the disk, in the order
    they were made. *)
Inductive call :=
  | CallLoadImage (path : string)
  | CallToBuffer
  | CallWriteFile (path : string)
  | CallUnlink (path : string).

Record World := { fs : FS; calls : list call }.

Definition log (c : call) (w : World) : World :=
  {| fs := fs w; calls := calls w ++ [c] |}.

Definition with_fs (d : FS) (w : World) : World :=
  {| fs := d; calls := calls w |}.

Module Fs.

(** The characters after the first one, without a ['/'] that ends the
    path. *)
Fixpoint chop_slash (p : string) : string :=
  match p with
  | EmptyString => EmptyString
  | String c rest =>
      if Ascii.eqb c "/" && bool_decide (rest = "") then EmptyString
      else String c (chop_slash rest)
  end.

(** The key of the directory that [p] names: [p] without a trailing
    ['/'], as the operating system and [path.resolve] read it. *)
Definition dir_key (p : string) : string :=
  match p with
  | EmptyString => EmptyString
  | String c rest => String c (chop_slash rest)
  end.

(** [fs.existsSync(p)]: a regular file at [p], or a directory at [p]
    with or without a trailing ['/']. *)
Definition existsSync (p : string) (d : FS) : bool :=
  bool_decide (is_Some (files d !! p)) || bool_decide (dir_key p ∈ dirs d).

(** [fs.mkdirSync(p)] at time [now], of a directory that does not exist
    yet. *)
Definition mkdirSync (now : N) (p : string) (d : FS) : FS :=
  {| files := files d; dir_times := <[ p := now ]> (dir_times d) |}.

(** [fs.writeFileSync(p, buffer)] at time [now]: the directory of [p]
    must exist and [p] must not be a directory; an existing file is
    replaced and keeps its creation time. *)
Definition writeFileSync (now : N) (p : string) (buffer : list Z) (d : FS)
    : exn + FS :=
  if bool_decide (p ∈ dirs d) then inl (EISDIR p)
  else if bool_decide (Path.dirname p ∈ dirs d) then
    let born :=
      match files d !! p with
      | Some old => birthtime old
      | None => now
      end in
    inr {| files := <[ p := {| content := buffer; birthtime := born |} ]> (files d);
           dir_times := dir_times d |}
  else inl (ENOENT p).

(** [fs.readFileSync(p)], as the canvas library reads its input. *)
Definition readFileSync (p : string) (d : FS) : exn + list Z :=
  match files d !! p with
  | Some f => inr (content f)
  | None => inl (if bool_decide (p ∈ dirs d) then EISDIR p else ENOENT p)
  end.

(** [fs.unlinkSync(p)] *)
Definition unlinkSync (p : string) (d : FS) : exn + FS :=
  match files d !! p with
  | Some _ => inr {| files := delete p (files d); dir_times := dir_times d |}
  | None => inl (ENOENT p)
  end.

(** The name of the entry of directory [dir] stored under the key [p],
    if [p] is [dir/name] for a single proper segment [name]. *)
Definition entry_name (dir p : string) : option string :=
  match JSString.split "/" p with
  | [d; name] =>
      if bool_decide (d = dir) &&
         negb (bool_decide (name = "")) &&
         negb (bool_decide (name = ".")) &&
         negb (bool_decide (name = ".."))
      then Some name else None
  | _ => None
  end.

(** [fs.readdirSync(dir)]: the names of the entries of [dir], regular
    files and sub-directories alike, each once. *)
Definition readdirSync (dir : string) (d : FS) : exn + list string :=
  if bool_decide (dir ∈ dirs d)
  then inr (omap (entry_name dir) (elements (dom (files d) ∪ dirs d)))
  else inl (ENOENT dir).

(** [fs.statSync(p).birthtime], of a regular file or of a directory. *)
Definition statSync_birthtime (p : string) (d : FS) : exn + N :=
  match files d !! p with
  | Some f => inr (birthtime f)
  | None =>
      match dir_times d !! p with
      | Some t => inr t
      | None => inl (ENOENT p)
      end
  end.

End Fs.

(** The part of [@napi-rs/canvas] that [processImage] uses, on the bytes of
    a file: [decodeImageData] is [loadImage], [createCanvas], [drawImage]
    and [getImageData] together; [encodePNG] is [putImageData] followed by
    [toBuffer('image/png')].  [None] stands for a thrown error. *)
Class Canvas := {
  decodeImageData : list Z -> option ImageData;
  encodePNG : ImageData -> option (list Z)
}.

(** A canvas with a raw file format (width, height, then the pixel data),
    on which the handlers can be run. *)
Definition raw_decode (bytes : list Z) : option ImageData :=
  match bytes with
  | w :: h :: d =>
      if (0 <? w) && (0 <? h) &&
         (Z.of_nat (length d) =? w * h * 4) &&
         forallb (fun b => (0 <=? b) && (b <=? 255)) d
      then Some {| width := Z.to_nat w; height := Z.to_nat h; data := d |}
      else None
  | _ => None
  end.

Definition raw_encode (img : ImageData) : option (list Z) :=
  Some (Z.of_nat (width img) :: Z.of_nat (height img) :: data img).

Definition raw_canvas : Canvas :=
  {| decodeImageData := raw_decode; encodePNG := raw_encode |}.

(* ================================================================== *)
(** ** [processImage] *)
(* ================================================================== *)

(** The value [processImage] resolves to. *)
Inductive ProcessResult :=
  | Succeeded (message : string)
  | Failed (error : string).

Section ProcessImage.
Context `{Canvas}.

(** [await loadImage(imagePath)] up to [ctx.getImageData(...)]. *)
Definition loadImageData (imagePath : string) (d : FS) : exn + ImageData :=
  match Fs.readFileSync imagePath d with
  | inl e => inl e
  | inr bytes =>
      match decodeImageData bytes with
      | Some img => inr img
      | None => inl DecodeFailure
      end
  end.

(** [processImage(imagePath, outputPath)]: every error thrown inside the
    [try] block is turned into [{ success: false, error }]. *)
Definition processImage (now : N) (imagePath outputPath : string) (w : World)
    : ProcessResult * World :=
  let w := log (CallLoadImage imagePath) w in
  match loadImageData imagePath (fs w) with
  | inl e => (Failed (message e), w)
  | inr imageData =>
      let imageData := grayscale_image imageData in
      let w := log CallToBuffer w in
      match encodePNG imageData with
      | None => (Failed (message EncodeFailure), w)
      | Some buffer =>
          let w := log (CallWriteFile outputPath) w in
          match Fs.writeFileSync now outputPath buffer (fs w) with
          | inl e => (Failed (message e), w)
          | inr d => (Succeeded "Image processed successfully", with_fs d w)
          end
      end
  end.

End ProcessImage.

(* ================================================================== *)
(** ** The routes *)
(* ================================================================== *)

(** The file part of a multipart request, as multer hands it to
    [fileFilter]. *)
Record Part := { originalname : string; mimetype : string; bytes : list Z }.

(** [req.file] once multer has staged the part on disk. *)
Record ReqFile := { part : Part; filename : string; path : string }.

(** An element of the [images] array of [GET /api/images]. *)
Record ImageEntry := { entry_filename : string; url : string; created : N }.

(** The JSON bodies the server sends. *)
Inductive Body :=
  | Failure (error : string)
  | Processed (message downloadUrl filename : string)
  | Images (images : list ImageEntry).

(** A response: [res.status(s).json(body)], [res.download(filePath)]
    sending the bytes of the file, or the page with status 404 that
    Express sends when no route and no middleware answers. *)
Inductive Response :=
  | Json (status : nat) (body : Body)
  | Download (filePath : string) (sent : list Z)
  | NotFoundPage.

(** What multer passes to [next] when it refuses or fails. *)
Inductive UploadError :=
  | MulterError (code : string) (message : string)
  | PlainError (message : string).

Definition outputDir : string := "outputs".
Definition uploadDir : string := "uploads".

(** [/jpeg|jpg|png|gif/.test(s)]: the pattern is not anchored. *)
Definition allowedTypes_test (s : string) : bool :=
  JSString.includes "jpeg" s || JSString.includes "jpg" s ||
  JSString.includes "png" s || JSString.includes "gif" s.

(** The [fileFilter] of the multer configuration: [true] for
    [cb(null, true)], [false] for [cb(new Error(...))]. *)
Definition fileFilter (p : Part) : bool :=
  let extname :=
    allowedTypes_test (JSString.toLowerCase (Path.extname (originalname p))) in
  let mimetype := allowedTypes_test (mimetype p) in
  mimetype && extname.

(** [limits.fileSize] *)
Definition fileSize_limit : Z := 10 * 1024 * 1024.

(** The [destination] callback of the disk storage, called at time
    [now]. *)
Definition destination (now : N) (d : FS) : string * FS :=
  if negb (Fs.existsSync uploadDir d)
  then (uploadDir, Fs.mkdirSync now uploadDir d)
  else (uploadDir, d).

(** The [filename] callback of the disk storage. *)
Definition staged_filename (now : N) (p : Part) : string :=
  JSString.of_number now +:+ "-" +:+ originalname p.

(** [upload.single('image')]: no part leaves [req.file] undefined; a part
    goes through the filter, is given a destination and a name, and is
    written there if it is within the size limit. *)
Definition upload_single (now : N) (p : option Part) (w : World)
    : (UploadError + option ReqFile) * World :=
  match p with
  | None => (inr None, w)
  | Some p =>
      if fileFilter p then
        let '(dest, d) := destination now (fs w) in
        let name := staged_filename now p in
        let finalPath := Path.join dest name in
        if fileSize_limit <? Z.of_nat (length (bytes p)) then
          (inl (MulterError "LIMIT_FILE_SIZE" "File too large"), with_fs d w)
        else
          match Fs.writeFileSync now finalPath (bytes p) d with
          | inl e => (inl (PlainError (message e)), with_fs d w)
          | inr d' =>
              (inr (Some {| part := p; filename := name; path := finalPath |}),
               with_fs d' w)
          end
      else (inl (PlainError "Only image files are allowed!"), w)
  end.

(** The error handling middleware. *)
Definition error_middleware (e : UploadError) : Response :=
  match e with
  | MulterError code msg =>
      if decide (code = "LIMIT_FILE_SIZE")
      then Json 400 (Failure "File too large. Maximum size is 10MB")
      else Json 500 (Failure msg)
  | PlainError msg => Json 500 (Failure msg)
  end.

(** [`processed-${req.file.filename.split('.')[0]}.png`] *)
Definition outputFilename (f : ReqFile) : string :=
  "processed-" +:+ JSString.split_first "." (filename f) +:+ ".png".

Definition outputPath (f : ReqFile) : string :=
  Path.join outputDir (outputFilename f).

Section Routes.
Context `{Canvas}.

(** The handler of [POST /api/process-image], after multer. *)
Definition process_image_handler (now : N) (req_file : option ReqFile)
    (w : World) : Response * World :=
  match req_file with
  | None => (Json 400 (Failure "No image file provided"), w)
  | Some f =>
      let inputPath := path f in
      let '(result, w) := processImage now inputPath (outputPath f) w in
      match result with
      | Succeeded _ =>
          let w := log (CallUnlink inputPath) w in
          match Fs.unlinkSync inputPath (fs w) with
          | inl _ =>
              (Json 500 (Failure "Internal server error during image processing"), w)
          | inr d =>
              (Json 200 (Processed "Image processed successfully"
                           ("/outputs/" +:+ outputFilename f)
                           (outputFilename f)),
               with_fs d w)
          end
      | Failed error => (Json 500 (Failure error), w)
      end
  end.

(** [POST /api/process-image]: multer, then the handler, or the error
    middleware when multer refuses the upload. *)
Definition post_process_image (now : N) (p : option Part) (w : World)
    : Response * World :=
  match upload_single now p w with
  | (inl e, w) => (error_middleware e, w)
  | (inr req_file, w) => process_image_handler now req_file w
  end.

End Routes.

(** [/\.(jpg|jpeg|png|gif)$/i.test(file)] *)
Definition raster_test (file : string) : bool :=
  let s := JSString.toLowerCase file in
  JSString.endsWith ".jpg" s || JSString.endsWith ".jpeg" s ||
  JSString.endsWith ".png" s || JSString.endsWith ".gif" s.

(** The object built for one listed file; [statSync] may throw. *)
Definition image_entry (d : FS) (file : string) : exn + ImageEntry :=
  match Fs.statSync_birthtime (Path.join outputDir file) d with
  | inl e => inl e
  | inr t => inr {| entry_filename := file; url := "/outputs/" +:+ file; created := t |}
  end.

(** [files.filter(...).map(...)]: the first error thrown ends the map. *)
Fixpoint image_entries (d : FS) (names : list string) : exn + list ImageEntry :=
  match names with
  | [] => inr []
  | file :: rest =>
      match image_entry d file with
      | inl e => inl e
      | inr entry =>
          match image_entries d rest with
          | inl e => inl e
          | inr entries => inr (entry :: entries)
          end
      end
  end.

(** [GET /api/images] *)
Definition get_images (w : World) : Response :=
  match Fs.readdirSync outputDir (fs w) with
  | inl _ => Json 500 (Failure "Error reading image directory")
  | inr names =>
      match image_entries (fs w) (List.filter raster_test names) with
      | inl _ => Json 500 (Failure "Error reading image directory")
      | inr imageFiles => Json 200 (Images imageFiles)
      end
  end.

(** The last segment of a path. *)
Definition last_segment (p : string) : string :=
  List.last (JSString.split "/" p) EmptyString.

(** A name that begins with ['.'], other than [.] and [..]. *)
Definition dot_name (seg : string) : bool :=
  match seg with
  | String c _ =>
      Ascii.eqb c "." && negb (bool_decide (seg = ".")) &&
      negb (bool_decide (seg = ".."))
  | EmptyString => false
  end.

(** [res.download(filePath)] without a callback.  Express resolves the
    path, which drops a trailing ['/'], and hands it to [send] with no
    [dotfiles] option: a file whose name begins with ['.'] is answered
    with the error 404 "Not Found", which goes to the error middleware;
    a regular file is sent; for a directory [next()] is called without
    an error, and Express answers with its 404 page.  A path that ends in
    [.] or [..] after [path.join] names the working directory or one
    above it, whose own names are taken not to begin with ['.']. *)
Definition res_download (filePath : string) (d : FS) : Response :=
  let p := Fs.dir_key filePath in
  if dot_name (last_segment p) then error_middleware (PlainError "Not Found")
  else
    match files d !! p with
    | Some f => Download filePath (content f)
    | None =>
        if bool_decide (p ∈ dirs d) then NotFoundPage
        else error_middleware (PlainError "Not Found")
    end.

(** [GET /api/download/:filename] *)
Definition get_download (filename : string) (w : World) : Response :=
  let filePath := Path.join outputDir filename in
  if Fs.existsSync filePath (fs w) then res_download filePath (fs w)
  else Json 404 (Failure "File not found").

(** A response that reports success. *)
Definition is_success (r : Response) : bool :=
  match r with
  | Json 200 (Processed _ _ _) => true
  | Json 200 (Images _) => true
  | Download _ _ => true
  | _ => false
  end.

(** An empty server directory with the two directories of the server. *)
Definition fresh_world : World :=
  {| fs := {| files := ∅;
              dir_times := <[ "." := 0%N ]> (<[ outputDir := 0%N ]>
                             (<[ uploadDir := 0%N ]> ∅)) |};
     calls := [] |}.

(* ================================================================== *)
(** ** Closed forms and finite checks used by the proofs *)
(* ================================================================== *)

(** The nearest integer to the mean of three bytes: what the loop is
    shown to store in the colour channels of a pixel. *)
Definition gray_level (r g b : Z) : Z := (r + g + b + 1) / 3.

(** The transform pixel by pixel.  A last group of fewer than four
    elements cannot occur in a buffer of [4 * width * height] elements;
    the loop then reads [undefined] and stores 0, unless all three colour
    elements are there. *)
Fixpoint gray_pixels (data : list Z) : list Z :=
  match data with
  | r :: g :: b :: a :: rest =>
      gray_level r g b :: gray_level r g b :: gray_level r g b :: a ::
      gray_pixels rest
  | [r; g; b] => [gray_level r g b; gray_level r g b; gray_level r g b]
  | [_; _] => [0; 0]
  | [_] => [0]
  | [] => []
  end.

(** [p] holds at every integer of [0, n). *)
Definition range_all (n : nat) (p : Z -> bool) : bool :=
  forallb (fun k => p (Z.of_nat k)) (seq 0 n).

(** The sum of two small integers is exact. *)
Definition add_exact_at (a b : Z) : bool :=
  JSNumber.same (JSNumber.add (JSNumber.of_int a) (JSNumber.of_int b))
                (JSNumber.of_int (a + b)).

(** Dividing a sum of three bytes by 3 and storing it rounds to the
    nearest integer. *)
Definition clamp_div3_at (s : Z) : bool :=
  JSNumber.ToUint8Clamp (JSNumber.div (JSNumber.of_int s) (JSNumber.of_int 3))
  =? (s + 1) / 3.

(* ================================================================== *)
(** ** The statements of the specification and the inputs of the runs *)
(* ================================================================== *)

(** The channel value the specification names: the mean of the three
    colour channels by truncating division. *)
Definition floor_mean (r g b : Z) : Z := (r + g + b) / 3.

(** The grayscale rule in the words of the specification, for one buffer:
    every colour channel of every pixel becomes [floor_mean] of the
    original pixel, and alpha stays. *)
Definition floor_grayscale (img : ImageData) : Prop :=
  forall (p : nat) (r g b a : Z),
    data img !! (4 * p)%nat = Some r ->
    data img !! (4 * p + 1)%nat = Some g ->
    data img !! (4 * p + 2)%nat = Some b ->
    data img !! (4 * p + 3)%nat = Some a ->
    data (grayscale_image img) !! (4 * p)%nat = Some (floor_mean r g b) /\
    data (grayscale_image img) !! (4 * p + 1)%nat = Some (floor_mean r g b) /\
    data (grayscale_image img) !! (4 * p + 2)%nat = Some (floor_mean r g b) /\
    data (grayscale_image img) !! (4 * p + 3)%nat = Some a.

(** A 1x1 image whose colour channels sum to 2. *)
Definition dark_pixel : ImageData :=
  {| width := 1; height := 1; data := [1; 1; 0; 255] |}.

(** A 2x2 opaque red image and a 2x2 opaque white image in the raw format
    of [raw_canvas]. *)
Definition red2x2 : list Z :=
  [2; 2; 255;0;0;255; 255;0;0;255; 255;0;0;255; 255;0;0;255].

Definition white2x2 : list Z :=
  [2; 2; 255;255;255;255; 255;255;255;255; 255;255;255;255; 255;255;255;255].

(** The birth time [writeFileSync] leaves on [p]. *)
Definition born_at (now : N) (p : string) (d : FS) : N :=
  match files d !! p with
  | Some old => birthtime old
  | None => now
  end.

(** [c] occurs in [s]. *)
Fixpoint has_char (c : ascii) (s : string) : bool :=
  match s with
  | EmptyString => false
  | String c' s' => Ascii.eqb c' c || has_char c s'
  end.

(** A name that a directory entry can have: not empty, not ["."] or
    [".."], and without a ['/']. *)
Definition proper_segment (name : string) : Prop :=
  name <> "" /\ name <> "." /\ name <> ".." /\ has_char "/" name = false.

(** The key of the entry [name] of the store directory. *)
Definition store_key (name : string) : string := outputDir +:+ "/" +:+ name.

(** A raster name in the words of the specification: a name that ends in
    a dot followed by jpg, jpeg, png or gif, in any letter case. *)
Definition raster_name (name : string) : Prop :=
  exists stem ext,
    name = stem +:+ "." +:+ ext /\
    In (JSString.toLowerCase ext) ["jpg"; "jpeg"; "png"; "gif"].

(** The creation time of what exists at the path [p], a regular file or
    a directory. *)
Definition entry_born (d : FS) (p : string) : option N :=
  match files d !! p with
  | Some f => Some (birthtime f)
  | None => dir_times d !! p
  end.

(** The raster formats of the specification. *)
Inductive format := JPEG | PNG | GIF.

(** The format an extension declares, in the words of the specification:
    the extension is one of jpeg, jpg, png, gif. *)
Definition format_of_extension (ext : string) : option format :=
  let e := JSString.toLowerCase ext in
  if decide (e = ".jpeg") then Some JPEG
  else if decide (e = ".jpg") then Some JPEG
  else if decide (e = ".png") then Some PNG
  else if decide (e = ".gif") then Some GIF
  else None.

(** The format a MIME type declares. *)
Definition format_of_mime (m : string) : option format :=
  if decide (m = "image/jpeg") then Some JPEG
  else if decide (m = "image/jpg") then Some JPEG
  else if decide (m = "image/png") then Some PNG
  else if decide (m = "image/gif") then Some GIF
  else None.

#[global] Instance format_eq_dec : EqDecision format.
Proof. solve_decision. Defined.

(** The declared type is in the accepted set of the specification. *)
Definition declared_in_accepted_set (p : Part) : bool :=
  bool_decide (is_Some (format_of_extension (Path.extname (originalname p)))) &&
  bool_decide (is_Some (format_of_mime (mimetype p))).

(** The declared extension and MIME type name the same format. *)
Definition declarations_agree (p : Part) : bool :=
  bool_decide (format_of_extension (Path.extname (originalname p))
               = format_of_mime (mimetype p)).

(** The answer to an upload that the filter refuses. *)
Definition unsupported_response : Response :=
  Json 500 (Failure "Only image files are allowed!").

(** Rejection before decode, in the words of the specification: the
    request is answered as an unsupported format and nothing was done,
    in particular no image was loaded. *)
Definition rejected_before_decode `{Canvas} (now : N) (p : Part) (w : World) : Prop :=
  post_process_image now (Some p) w = (unsupported_response, w).

(** No silent overwrite, in the words of the specification: a successful
    request leaves every file that was already in the store as it was. *)
Definition save_keeps_entries `{Canvas} (now : N) (p : Part) (w : World) : Prop :=
  forall r w', post_process_image now (Some p) w = (r, w') ->
    is_success r = true ->
    forall key name old,
      Fs.entry_name outputDir key = Some name ->
      files (fs w) !! key = Some old ->
      files (fs w') !! key = Some old.

(** Uploads used to run the routes. *)
Definition upload_a_png : Part :=
  {| originalname := "a.png"; mimetype := "image/png"; bytes := red2x2 |}.

Definition upload_a_jpg : Part :=
  {| originalname := "a.jpg"; mimetype := "image/jpeg"; bytes := white2x2 |}.

Definition upload_pngx : Part :=
  {| originalname := "scan.pngx"; mimetype := "image/png"; bytes := red2x2 |}.

Definition upload_mismatch : Part :=
  {| originalname := "a.png"; mimetype := "image/jpeg"; bytes := red2x2 |}.

Definition upload_text : Part :=
  {| originalname := "notes.txt"; mimetype := "image/png"; bytes := red2x2 |}.

Definition upload_corrupt : Part :=
  {| originalname := "a.png"; mimetype := "image/png"; bytes := [1; 2; 3] |}.

(** [req.file] for an upload staged at time 5, and the world it is in. *)
Definition staged (p : Part) : ReqFile :=
  {| part := p; filename := staged_filename 5 p;
     path := Path.join uploadDir (staged_filename 5 p) |}.

Definition staged_world (p : Part) : World :=
  snd (upload_single 5 (Some p) fresh_world).

(** The world after [a.png] was processed at time 5. *)
Definition world_after_a_png : World :=
  snd (@post_process_image raw_canvas 5 (Some upload_a_png) fresh_world).

(** A store that holds an image, a text file, a hidden image, a
    sub-directory with a raster name and one without. *)
Definition world_mixed_store : World :=
  {| fs := {| files :=
                <[ "outputs/a.PNG" := {| content := red2x2; birthtime := 3 |} ]>
                  (<[ "outputs/notes.txt" := {| content := [110; 111]; birthtime := 4 |} ]>
                     (<[ "outputs/.hidden.png" := {| content := white2x2; birthtime := 6 |} ]> ∅));
              dir_times :=
                <[ "." := 0%N ]> (<[ outputDir := 0%N ]>
                  (<[ "outputs/sub.gif" := 7%N ]>
                     (<[ "outputs/thumbs" := 8%N ]> ∅))) |};
     calls := [] |}.

(** A server directory with the source file next to the store. *)
Definition world_with_source : World :=
  {| fs := {| files :=
                <[ "server.js" := {| content := [99; 111; 110; 115; 116]; birthtime := 1 |} ]>
                  (<[ "outputs/processed-5-a.png" := {| content := red2x2; birthtime := 5 |} ]> ∅);
              dir_times := <[ "." := 0%N ]> (<[ outputDir := 0%N ]>
                             (<[ uploadDir := 0%N ]> ∅)) |};
     calls := [] |}.

(* ================================================================== *)
(** ** Start-up, and definitions used by the further properties *)
(* ================================================================== *)

(** Lines 48-52 of [server.js]: at start-up, at time [now], the output
    directory is created unless something already exists under its
    name. *)
Definition ensure_outputDir (now : N) (d : FS) : FS :=
  if negb (Fs.existsSync outputDir d) then Fs.mkdirSync now outputDir d else d.

(** A working directory in which the server has not been started yet. *)
Definition bare_world : World :=
  {| fs := {| files := ∅; dir_times := <[ "." := 0%N ]> ∅ |}; calls := [] |}.

(** An upload of one byte more than [limits.fileSize]. *)
Definition upload_huge : Part :=
  {| originalname := "big.png"; mimetype := "image/png";
     bytes := repeat 0 (Z.to_nat (fileSize_limit + 1)) |}.

(** The variables of the scan of [path.extname] while it reads an
    extension that ends at index [len]. *)
Definition in_extension (len : Z) : Path.ext_state :=
  {| Path.startDot := -1; Path.startPart := 0; Path.end_ := len;
     Path.matchedSlash := false; Path.preDotState := 0 |}.

(* ================================================================== *)
(** * Properties *)
(* ================================================================== *)

(** ** Arithmetic of the pixel loop *)

Lemma range_all_spec n p :
  range_all n p = true -> forall z, 0 <= z < Z.of_nat n -> p z = true.
Proof.
  unfold range_all. rewrite forallb_forall. intros Hall z Hz.
  specialize (Hall (Z.to_nat z)).
  rewrite Z2Nat.id in Hall by lia.
  apply Hall, in_seq. lia.
Qed.

Lemma same_eq x y : JSNumber.same x y = true -> x = y.
Proof.
  destruct x as [s|s| |s m e], y as [t|t| |t n f]; simpl; try discriminate;
    try reflexivity.
  - intros ->%Bool.eqb_prop. reflexivity.
  - intros ->%Bool.eqb_prop. reflexivity.
  - rewrite !andb_true_iff. intros [[->%Bool.eqb_prop ->%Pos.eqb_eq] ->%Z.eqb_eq].
    reflexivity.
Qed.

Lemma add_exact_checked :
  range_all 511 (fun a => range_all 256 (fun b => add_exact_at a b)) = true.
Proof. vm_compute. reflexivity. Qed.

Lemma clamp_div3_checked : range_all 766 clamp_div3_at = true.
Proof. vm_compute. reflexivity. Qed.

Lemma add_exact a b :
  0 <= a <= 510 -> 0 <= b <= 255 ->
  JSNumber.add (JSNumber.of_int a) (JSNumber.of_int b) = JSNumber.of_int (a + b).
Proof.
  intros Ha Hb. apply same_eq.
  pose proof (range_all_spec _ _ add_exact_checked a ltac:(lia)) as H1.
  cbv beta in H1.
  exact (range_all_spec _ _ H1 b ltac:(lia)).
Qed.

Lemma clamp_div3 s :
  0 <= s <= 765 ->
  JSNumber.ToUint8Clamp (JSNumber.div (JSNumber.of_int s) (JSNumber.of_int 3))
  = (s + 1) / 3.
Proof.
  intros Hs. apply Z.eqb_eq.
  exact (range_all_spec _ _ clamp_div3_checked s ltac:(lia)).
Qed.

(** The value stored for a pixel whose three colour elements are bytes. *)
Lemma stored_average r g b :
  byte_ok r -> byte_ok g -> byte_ok b ->
  JSNumber.ToUint8Clamp
    (JSNumber.div
       (JSNumber.add (JSNumber.add (JSNumber.of_int r) (JSNumber.of_int g))
                     (JSNumber.of_int b))
       (JSNumber.of_int 3))
  = gray_level r g b.
Proof.
  unfold byte_ok, gray_level. intros Hr Hg Hb.
  rewrite (add_exact r g) by lia.
  rewrite (add_exact (r + g) b) by lia.
  apply clamp_div3. lia.
Qed.

Lemma gray_level_byte r g b :
  byte_ok r -> byte_ok g -> byte_ok b -> byte_ok (gray_level r g b).
Proof.
  unfold byte_ok, gray_level. intros Hr Hg Hb.
  split.
  - apply Z.div_pos; lia.
  - apply Z.lt_succ_r, Z.div_lt_upper_bound; lia.
Qed.

Lemma gray_level_same c : gray_level c c c = c.
Proof.
  unfold gray_level.
  replace (c + c + c + 1) with (1 + c * 3) by lia.
  rewrite Z.div_add by lia. reflexivity.
Qed.

(** ** The loop and its closed form *)

Lemma gray_body_app pre suf :
  gray_body (pre ++ suf) (length pre) = pre ++ gray_body suf 0.
Proof.
  unfold gray_body, avg_at, store.
  rewrite !(lookup_app_r pre suf) by lia.
  replace (length pre - length pre)%nat with 0%nat by lia.
  replace (length pre + 1 - length pre)%nat with 1%nat by lia.
  replace (length pre + 2 - length pre)%nat with 2%nat by lia.
  change (0 + 1)%nat with 1%nat. change (0 + 2)%nat with 2%nat.
  set (v := JSNumber.ToUint8Clamp _).
  rewrite (insert_app_r_alt pre suf (length pre)) by lia.
  rewrite Nat.sub_diag, !insert_app_r. reflexivity.
Qed.

Lemma gray_body_pixel r g b rest :
  byte_ok r -> byte_ok g -> byte_ok b ->
  gray_body (r :: g :: b :: rest) 0
  = gray_level r g b :: gray_level r g b :: gray_level r g b :: rest.
Proof.
  intros Hr Hg Hb. unfold gray_body, avg_at, store.
  change ((r :: g :: b :: rest) !! 0%nat) with (Some r).
  change ((r :: g :: b :: rest) !! (0 + 1)%nat) with (Some g).
  change ((r :: g :: b :: rest) !! (0 + 2)%nat) with (Some b).
  unfold JSNumber.ToNumber. rewrite stored_average by assumption.
  reflexivity.
Qed.

Lemma add_nan_r x : JSNumber.add x S754_nan = S754_nan.
Proof. destruct x; reflexivity. Qed.

Lemma div_nan_l y : JSNumber.div S754_nan y = S754_nan.
Proof. reflexivity. Qed.

(** A group cut short reads [undefined]: the sum is [NaN], stored as 0. *)
Lemma gray_body_two r g : gray_body [r; g] 0 = [0; 0].
Proof.
  unfold gray_body, avg_at, store.
  change ([r; g] !! (0 + 2)%nat) with (@None Z).
  change (JSNumber.ToNumber None) with S754_nan.
  rewrite !add_nan_r, !div_nan_l. reflexivity.
Qed.

Lemma gray_body_one r : gray_body [r] 0 = [0].
Proof.
  unfold gray_body, avg_at, store.
  change ([r] !! (0 + 2)%nat) with (@None Z).
  change (JSNumber.ToNumber None) with S754_nan.
  rewrite !add_nan_r, !div_nan_l. reflexivity.
Qed.

Lemma gray_pixels_length l : length (gray_pixels l) = length l.
Proof.
  induction l as [l IH] using (induction_ltof1 _ (@length Z)); unfold ltof in IH.
  destruct l as [|r [|g [|b [|a rest]]]]; try reflexivity.
  simpl. rewrite IH by (simpl; lia). reflexivity.
Qed.

(** Run from the start of a group, with at least one unit of fuel per
    remaining element, the loop leaves the elements before [i] alone and
    turns the rest into [gray_pixels]. *)
Lemma gray_loop_app fuel : forall pre suf,
  Forall byte_ok suf -> (length suf <= fuel)%nat ->
  gray_loop fuel (length pre) (pre ++ suf) = pre ++ gray_pixels suf.
Proof.
  induction fuel as [|fuel IH]; intros pre suf Hok Hlen.
  - destruct suf; [reflexivity | simpl in Hlen; lia].
  - simpl. rewrite length_app.
    destruct suf as [|r [|g [|b [|a rest]]]].
    + rewrite decide_False by (simpl; lia). reflexivity.
    + rewrite decide_True by (simpl; lia).
      rewrite gray_body_app, gray_body_one.
      destruct fuel; [reflexivity|]. simpl.
      rewrite decide_False by (rewrite length_app; simpl; lia). reflexivity.
    + rewrite decide_True by (simpl; lia).
      rewrite gray_body_app, gray_body_two.
      destruct fuel; [reflexivity|]. simpl.
      rewrite decide_False by (rewrite length_app; simpl; lia). reflexivity.
    + rewrite decide_True by (simpl; lia).
      inversion Hok as [|? ? Hr Hok1]; subst.
      inversion Hok1 as [|? ? Hg Hok2]; subst.
      inversion Hok2 as [|? ? Hb _]; subst.
      rewrite gray_body_app, gray_body_pixel by assumption.
      destruct fuel; [reflexivity|]. simpl.
      rewrite decide_False by (rewrite length_app; simpl; lia). reflexivity.
    + rewrite decide_True by (simpl; lia).
      inversion Hok as [|? ? Hr Hok1]; subst.
      inversion Hok1 as [|? ? Hg Hok2]; subst.
      inversion Hok2 as [|? ? Hb Hok3]; subst.
      inversion Hok3 as [|? ? Ha Hrest]; subst.
      rewrite gray_body_app, gray_body_pixel by assumption.
      set (c := gray_level r g b).
      change (pre ++ c :: c :: c :: a :: rest)
        with (pre ++ [c; c; c; a] ++ rest).
      rewrite app_assoc.
      replace (length pre + 4)%nat with (length (pre ++ [c; c; c; a]))
        by (rewrite length_app; reflexivity).
      rewrite IH by (try assumption; simpl in Hlen; lia).
      rewrite <- app_assoc. reflexivity.
Qed.

(** The loop of [processImage] computes [gray_pixels]; more fuel than
    [length data] changes nothing. *)
Lemma gray_loop_enough fuel data :
  Forall byte_ok data -> (length data <= fuel)%nat ->
  gray_loop fuel 0 data = gray_pixels data.
Proof.
  intros Hok Hlen. exact (gray_loop_app fuel [] data Hok Hlen).
Qed.

Lemma grayscale_pixels data :
  Forall byte_ok data -> grayscale data = gray_pixels data.
Proof. intros Hok. apply gray_loop_enough; [assumption | lia]. Qed.

Lemma gray_pixels_bytes l : Forall byte_ok l -> Forall byte_ok (gray_pixels l).
Proof.
  induction l as [l IH] using (induction_ltof1 _ (@length Z)); unfold ltof in IH.
  intros Hok.
  destruct l as [|r [|g [|b [|a rest]]]]; simpl.
  - constructor.
  - repeat constructor; unfold byte_ok; lia.
  - repeat constructor; unfold byte_ok; lia.
  - inversion Hok as [|? ? Hr Hok1]; subst.
    inversion Hok1 as [|? ? Hg Hok2]; subst.
    inversion Hok2 as [|? ? Hb _]; subst.
    repeat constructor; apply gray_level_byte; assumption.
  - inversion Hok as [|? ? Hr Hok1]; subst.
    inversion Hok1 as [|? ? Hg Hok2]; subst.
    inversion Hok2 as [|? ? Hb Hok3]; subst.
    inversion Hok3 as [|? ? Ha Hrest]; subst.
    repeat (constructor; [first [apply gray_level_byte; assumption | assumption]|]).
    apply IH; [simpl; lia | assumption].
Qed.

Lemma gray_pixels_idem l : gray_pixels (gray_pixels l) = gray_pixels l.
Proof.
  induction l as [l IH] using (induction_ltof1 _ (@length Z)); unfold ltof in IH.
  destruct l as [|r [|g [|b [|a rest]]]]; try reflexivity.
  - simpl. rewrite gray_level_same. reflexivity.
  - cbn [gray_pixels]. rewrite gray_level_same.
    rewrite IH by (simpl; lia). reflexivity.
Qed.

(** The four elements of pixel [p], before and after. *)
Lemma gray_pixels_pixel p : forall l r g b a,
  l !! (4 * p)%nat = Some r -> l !! (4 * p + 1)%nat = Some g ->
  l !! (4 * p + 2)%nat = Some b -> l !! (4 * p + 3)%nat = Some a ->
  gray_pixels l !! (4 * p)%nat = Some (gray_level r g b) /\
  gray_pixels l !! (4 * p + 1)%nat = Some (gray_level r g b) /\
  gray_pixels l !! (4 * p + 2)%nat = Some (gray_level r g b) /\
  gray_pixels l !! (4 * p + 3)%nat = Some a.
Proof.
  induction p as [|p IH]; intros l r g b a H0 H1 H2 H3.
  - destruct l as [|r' [|g' [|b' [|a' rest]]]]; try discriminate.
    simpl in *. injection H0 as ->. injection H1 as ->.
    injection H2 as ->. injection H3 as ->. repeat split.
  - replace (4 * S p)%nat with (S (S (S (S (4 * p))))) in * by lia.
    replace (S (S (S (S (4 * p)))) + 1)%nat with (S (S (S (S (4 * p + 1))))) in * by lia.
    replace (S (S (S (S (4 * p)))) + 2)%nat with (S (S (S (S (4 * p + 2))))) in * by lia.
    replace (S (S (S (S (4 * p)))) + 3)%nat with (S (S (S (S (4 * p + 3))))) in * by lia.
    destruct l as [|r' [|g' [|b' [|a' rest]]]]; try (simpl in H0; discriminate).
    cbn [gray_pixels].
    change ((?x :: ?y :: ?z :: ?t :: ?l) !! S (S (S (S ?i)))) with (l !! i) in *.
    apply IH; assumption.
Qed.

(** The example of the specification: an opaque red 2x2 image becomes
    85, 85, 85, 255 at every pixel. *)
Example grayscale_red_2x2 :
  grayscale [255;0;0;255; 255;0;0;255; 255;0;0;255; 255;0;0;255]
  = [85;85;85;255; 85;85;85;255; 85;85;85;255; 85;85;85;255].
Proof. vm_compute. reflexivity. Qed.

Example grayscale_rounds_up : grayscale [1;1;0;255] = [1;1;1;255].
Proof. vm_compute. reflexivity. Qed.

Example extname_examples :
  Path.extname "a.b.JPG" = ".JPG" /\ Path.extname ".bashrc" = "" /\
  Path.extname "scan.pngx" = ".pngx" /\ Path.extname "index" = "".
Proof. vm_compute. repeat split. Qed.

Example join_examples :
  Path.join "outputs" "a.png" = "outputs/a.png" /\
  Path.join "outputs" "../server.js" = "server.js" /\
  Path.join "outputs" "a//b/./c/" = "outputs/a/b/c/".
Proof. vm_compute. repeat split. Qed.

(** ** The grayscale transform *)

Lemma gray_level_floor r g b :
  gray_level r g b
  = floor_mean r g b + (if (r + g + b) mod 3 =? 2 then 1 else 0).
Proof.
  unfold gray_level, floor_mean.
  pose proof (Z.div_mod (r + g + b) 3 ltac:(lia)) as Hdm.
  pose proof (Z.mod_pos_bound (r + g + b) 3 ltac:(lia)) as Hb.
  set (q := (r + g + b) / 3) in *. set (m := (r + g + b) mod 3) in *.
  destruct (Z.eqb_spec m 2) as [Hm|Hm].
  - symmetry. apply Z.div_unique with (r := 0); lia.
  - symmetry. apply Z.div_unique with (r := m + 1); lia.
Qed.

Lemma dark_pixel_valid : valid_buffer dark_pixel.
Proof.
  unfold valid_buffer, dark_pixel, byte_ok; simpl.
  repeat split; try lia; repeat constructor; lia.
Defined.

(** C1 (as amended): in a valid buffer, after the transform the R, G and B
    elements of every pixel all hold the mean of the pixel's original R, G
    and B rounded to the nearest integer, which is the truncated mean plus
    one when the sum leaves remainder 2 by 3; the alpha element is
    unchanged. *)
Theorem grayscale_rounds_to_nearest (img : ImageData) (p : nat) (r g b a : Z) :
  valid_buffer img ->
  data img !! (4 * p)%nat = Some r ->
  data img !! (4 * p + 1)%nat = Some g ->
  data img !! (4 * p + 2)%nat = Some b ->
  data img !! (4 * p + 3)%nat = Some a ->
  let v := floor_mean r g b + (if (r + g + b) mod 3 =? 2 then 1 else 0) in
  data (grayscale_image img) !! (4 * p)%nat = Some v /\
  data (grayscale_image img) !! (4 * p + 1)%nat = Some v /\
  data (grayscale_image img) !! (4 * p + 2)%nat = Some v /\
  data (grayscale_image img) !! (4 * p + 3)%nat = Some a.
Proof.
  intros (_ & _ & _ & Hok) H0 H1 H2 H3 v. unfold v.
  rewrite <- gray_level_floor.
  unfold grayscale_image; cbn [data].
  rewrite grayscale_pixels by assumption.
  apply gray_pixels_pixel; assumption.
Qed.

Lemma grayscale_rounds_to_nearest_witness :
  valid_buffer dark_pixel /\
  data (grayscale_image dark_pixel) !! 0%nat = Some 1 /\
  data (grayscale_image dark_pixel) !! 1%nat = Some 1 /\
  data (grayscale_image dark_pixel) !! 2%nat = Some 1 /\
  data (grayscale_image dark_pixel) !! 3%nat = Some 255.
Proof.
  split; [exact dark_pixel_valid|].
  exact (grayscale_rounds_to_nearest dark_pixel 0 1 1 0 255 dark_pixel_valid
           eq_refl eq_refl eq_refl eq_refl).
Defined.

(** C1 (as stated) fails: on the 1x1 buffer (1, 1, 0, 255) the loop stores
    1 in the colour channels, and the truncated mean of 1, 1, 0 is 0. *)
Lemma floor_grayscale_fails :
  valid_buffer dark_pixel /\ ~ floor_grayscale dark_pixel.
Proof.
  split; [exact dark_pixel_valid|].
  intros Hclaim.
  destruct (Hclaim 0%nat 1 1 0 255 eq_refl eq_refl eq_refl eq_refl) as [Hred _].
  vm_compute in Hred. discriminate Hred.
Qed.

(** C3: applying the transform twice to a valid buffer gives the same
    buffer as applying it once. *)
Theorem grayscale_idempotent (img : ImageData) :
  valid_buffer img ->
  grayscale_image (grayscale_image img) = grayscale_image img.
Proof.
  intros (_ & _ & _ & Hok).
  unfold grayscale_image; cbn [width height data]. f_equal.
  rewrite (grayscale_pixels (data img)) by assumption.
  rewrite grayscale_pixels by (apply gray_pixels_bytes; assumption).
  apply gray_pixels_idem.
Qed.

Lemma grayscale_idempotent_witness :
  valid_buffer dark_pixel /\
  grayscale_image (grayscale_image dark_pixel) = grayscale_image dark_pixel.
Proof.
  split; [exact dark_pixel_valid|].
  exact (grayscale_idempotent dark_pixel dark_pixel_valid).
Defined.

Lemma gray_pixels_alpha p : forall l k,
  length l = (4 * k)%nat ->
  gray_pixels l !! (4 * p + 3)%nat = l !! (4 * p + 3)%nat.
Proof.
  induction p as [|p IH]; intros l k Hlen.
  - destruct l as [|r [|g [|b [|a rest]]]]; simpl in Hlen; try lia; reflexivity.
  - replace (4 * S p + 3)%nat with (S (S (S (S (4 * p + 3))))) by lia.
    destruct l as [|r [|g [|b [|a rest]]]]; simpl in Hlen; try lia;
      [reflexivity|].
    cbn [gray_pixels].
    change ((?x :: ?y :: ?z :: ?t :: ?l) !! S (S (S (S ?i)))) with (l !! i).
    apply (IH rest (k - 1)%nat). lia.
Qed.

(** C9: the transform keeps the buffer invariant: same width and height,
    a data length that is still [width * height * 4], elements that are
    still bytes, and the fourth element of every group of four (alpha)
    exactly as it was, so the channel order is kept. *)
Theorem grayscale_preserves_buffer (img : ImageData) :
  valid_buffer img ->
  valid_buffer (grayscale_image img) /\
  width (grayscale_image img) = width img /\
  height (grayscale_image img) = height img /\
  length (data (grayscale_image img)) = (width img * height img * 4)%nat /\
  forall p : nat,
    data (grayscale_image img) !! (4 * p + 3)%nat = data img !! (4 * p + 3)%nat.
Proof.
  intros (Hw & Hh & Hlen & Hok).
  assert (Hdata : data (grayscale_image img) = gray_pixels (data img)).
  { unfold grayscale_image; cbn [data]. apply grayscale_pixels, Hok. }
  assert (Hlen' : length (data (grayscale_image img))
                  = (width img * height img * 4)%nat).
  { rewrite Hdata, gray_pixels_length. exact Hlen. }
  repeat split; try assumption.
  - rewrite Hdata. apply gray_pixels_bytes, Hok.
  - intros p. rewrite Hdata.
    apply (gray_pixels_alpha p _ (width img * height img)%nat). lia.
Qed.

Lemma grayscale_preserves_buffer_witness :
  valid_buffer dark_pixel /\
  valid_buffer (grayscale_image dark_pixel) /\
  length (data (grayscale_image dark_pixel)) = 4%nat.
Proof.
  split; [exact dark_pixel_valid|].
  pose proof (grayscale_preserves_buffer dark_pixel dark_pixel_valid)
    as (Hv & _ & _ & Hl & _).
  split; [exact Hv | exact Hl].
Defined.

(** ** [processImage] and the handler of [POST /api/process-image] *)

Lemma string_length_app (a b : string) :
  String.length (a +:+ b) = (String.length a + String.length b)%nat.
Proof. induction a as [|c a IH]; simpl; [reflexivity | rewrite IH; reflexivity]. Qed.

Lemma append_inj_r (t : string) : forall a b : string,
  a +:+ t = b +:+ t -> a = b.
Proof.
  assert (Hlen : forall a b : string, a +:+ t = b +:+ t ->
                                      String.length a = String.length b).
  { intros a b Heq. apply (f_equal String.length) in Heq.
    rewrite !string_length_app in Heq. lia. }
  induction a as [|c a IH]; intros [|c' b] Heq.
  - reflexivity.
  - apply Hlen in Heq. discriminate Heq.
  - apply Hlen in Heq. discriminate Heq.
  - simpl in Heq. injection Heq as -> Heq. f_equal. apply IH, Heq.
Qed.

Lemma outputFilename_eq_iff (f1 f2 : ReqFile) :
  outputFilename f1 = outputFilename f2 <->
  JSString.split_first "." (filename f1) = JSString.split_first "." (filename f2).
Proof.
  unfold outputFilename. split.
  - intros Heq. apply String.app_inj in Heq. apply append_inj_r in Heq. exact Heq.
  - intros ->. reflexivity.
Qed.

Section HandlerProperties.
Context `{Canvas}.

Lemma loadImageData_exists p d img :
  loadImageData p d = inr img -> is_Some (files d !! p).
Proof.
  unfold loadImageData, Fs.readFileSync.
  destruct (files d !! p); [eauto | discriminate].
Qed.

(** A failed [processImage] has written nothing. *)
Lemma processImage_failed now i o w e w' :
  processImage now i o w = (Failed e, w') -> fs w' = fs w.
Proof.
  unfold processImage. cbn [log fs].
  destruct (loadImageData i (fs w)) as [x|img]; [intros [= _ <-]; reflexivity|].
  destruct (encodePNG (grayscale_image img)) as [png|];
    [|intros [= _ <-]; reflexivity].
  destruct (Fs.writeFileSync now o png (fs w)) as [x|d];
    [intros [= _ <-]; reflexivity | discriminate].
Qed.

(** A successful [processImage] decoded the input, encoded its
    grayscale and wrote the result to the output path. *)
Lemma processImage_succeeded now i o w m w' :
  processImage now i o w = (Succeeded m, w') ->
  exists img png,
    loadImageData i (fs w) = inr img /\
    encodePNG (grayscale_image img) = Some png /\
    Fs.writeFileSync now o png (fs w) = inr (fs w') /\
    calls w' = calls w ++ [CallLoadImage i; CallToBuffer; CallWriteFile o].
Proof.
  unfold processImage. cbn [log fs].
  destruct (loadImageData i (fs w)) as [x|img]; [discriminate|].
  destruct (encodePNG (grayscale_image img)) as [png|] eqn:Henc; [|discriminate].
  destruct (Fs.writeFileSync now o png (fs w)) as [x|d] eqn:Hwr; [discriminate|].
  intros [= _ <-]. exists img, png. cbn [with_fs log fs calls].
  repeat split; try assumption. rewrite <- !app_assoc. reflexivity.
Qed.

Lemma writeFileSync_files now p buf d d' :
  Fs.writeFileSync now p buf d = inr d' ->
  files d' = <[ p := {| content := buf; birthtime := born_at now p d |} ]> (files d)
  /\ dirs d' = dirs d.
Proof.
  unfold Fs.writeFileSync, born_at.
  destruct (bool_decide (p ∈ dirs d)); [discriminate|].
  destruct (bool_decide (Path.dirname p ∈ dirs d)); [|discriminate].
  intros [= <-]. split; reflexivity.
Qed.

(** After a successful [processImage] the staged input is still on
    disk, so [unlinkSync] finds it. *)
Lemma input_survives_write now i o w m w' :
  processImage now i o w = (Succeeded m, w') -> is_Some (files (fs w') !! i).
Proof.
  intros (img & png & Hload & _ & Hwrite & _)%processImage_succeeded.
  apply loadImageData_exists in Hload.
  apply writeFileSync_files in Hwrite as [-> _].
  rewrite lookup_insert_is_Some. destruct (decide (o = i)); auto.
Qed.

(** What the handler does, by the outcome of [processImage]. *)
Lemma handler_failed now f w e w1 :
  processImage now (path f) (outputPath f) w = (Failed e, w1) ->
  process_image_handler now (Some f) w = (Json 500 (Failure e), w1).
Proof. intros Hp. unfold process_image_handler. rewrite Hp. reflexivity. Qed.

Lemma handler_succeeded now f w m w1 :
  processImage now (path f) (outputPath f) w = (Succeeded m, w1) ->
  process_image_handler now (Some f) w
  = (Json 200 (Processed "Image processed successfully"
                 ("/outputs/" +:+ outputFilename f) (outputFilename f)),
     {| fs := {| files := delete (path f) (files (fs w1));
                 dir_times := dir_times (fs w1) |};
        calls := calls w1 ++ [CallUnlink (path f)] |}).
Proof.
  intros Hp. pose proof (input_survives_write _ _ _ _ _ _ Hp) as [x Hx].
  unfold process_image_handler. rewrite Hp.
  unfold Fs.unlinkSync. cbn [log fs calls]. rewrite Hx. reflexivity.
Qed.


(** C10: with the staged upload on disk at [req.file.path], the handler
    answers with success exactly when the staged file is gone
    afterwards: on success [unlinkSync] was the last call made and the
    file no longer exists; on failure it is still there, unchanged. *)
Theorem staged_upload_deleted_iff_success now f w r w' staged :
  files (fs w) !! path f = Some staged ->
  process_image_handler now (Some f) w = (r, w') ->
  (is_success r = true ->
     files (fs w') !! path f = None /\
     last (calls w') = Some (CallUnlink (path f))) /\
  (is_success r = false -> files (fs w') !! path f = Some staged) /\
  (files (fs w') !! path f = None <-> is_success r = true).
Proof.
  intros Hstaged.
  destruct (processImage now (path f) (outputPath f) w) as [[m|e] w1] eqn:Hp.
  - rewrite (handler_succeeded _ _ _ _ _ Hp). intros [= <- <-].
    cbn [fs files calls is_success]. rewrite lookup_delete_eq, last_snoc.
    repeat split; intros; try discriminate; reflexivity.
  - rewrite (handler_failed _ _ _ _ _ Hp). intros [= <- <-].
    rewrite (processImage_failed _ _ _ _ _ _ Hp), Hstaged.
    cbn [is_success]. repeat split; intros; try discriminate; reflexivity.
Qed.

(** C2 (as amended): the output filename is ["processed-"], the staged
    filename up to its first ['.'], and [".png"], so two uploads get the
    same output filename exactly when their staged filenames agree up to
    the first ['.'].  A successful call has decoded the staged file and
    stores the PNG encoding of its grayscale under that name, replacing
    whatever entry was there (which keeps its creation time); it removes
    the staged input and changes no other file. *)
Theorem save_overwrites_by_name now f w r w' :
  process_image_handler now (Some f) w = (r, w') ->
  is_success r = true ->
  (forall f2, outputFilename f2 = outputFilename f <->
              JSString.split_first "." (filename f2)
              = JSString.split_first "." (filename f)) /\
  r = Json 200 (Processed "Image processed successfully"
                  ("/outputs/" +:+ outputFilename f) (outputFilename f)) /\
  exists staged img png,
    files (fs w) !! path f = Some staged /\
    decodeImageData (content staged) = Some img /\
    encodePNG (grayscale_image img) = Some png /\
    files (fs w')
    = delete (path f)
        (<[ outputPath f :=
              {| content := png;
                 birthtime := born_at now (outputPath f) (fs w) |} ]>
           (files (fs w))).
Proof.
  destruct (processImage now (path f) (outputPath f) w) as [[m|e] w1] eqn:Hp.
  - rewrite (handler_succeeded _ _ _ _ _ Hp). intros [= <- <-] _.
    split; [intros f2; apply outputFilename_eq_iff|].
    split; [reflexivity|].
    apply processImage_succeeded in Hp as (img & png & Hload & Henc & Hwrite & _).
    apply writeFileSync_files in Hwrite as [Hfiles _].
    unfold loadImageData, Fs.readFileSync in Hload.
    destruct (files (fs w) !! path f) as [staged|] eqn:Hstaged; [|discriminate].
    destruct (decodeImageData (content staged)) as [img'|] eqn:Hdec;
      [|discriminate].
    injection Hload as ->.
    exists staged, img, png. cbn [fs files]. rewrite Hfiles.
    repeat split; assumption.
  - rewrite (handler_failed _ _ _ _ _ Hp). intros [= <- _]. discriminate.
Qed.

End HandlerProperties.

(** ** Paths of directory entries *)

Lemma split_nonempty sep s : JSString.split sep s <> [].
Proof.
  destruct s as [|c s]; simpl; [discriminate|].
  destruct (Ascii.eqb c sep); [discriminate|].
  destruct (JSString.split sep s); discriminate.
Qed.

Lemma split_without_sep sep s :
  has_char sep s = false -> JSString.split sep s = [s].
Proof.
  induction s as [|c s IH]; simpl; [reflexivity|].
  intros [Hc Hs]%orb_false_iff. rewrite Hc, (IH Hs). reflexivity.
Qed.

Lemma split_app_sep sep a b :
  JSString.split sep (a +:+ String sep b)
  = JSString.split sep a ++ JSString.split sep b.
Proof.
  induction a as [|c a IH]; simpl.
  - rewrite Ascii.eqb_refl. reflexivity.
  - rewrite IH. destruct (Ascii.eqb c sep); [reflexivity|].
    pose proof (split_nonempty sep a) as Hne.
    destruct (JSString.split sep a); [congruence | reflexivity].
Qed.

Lemma split_segments_without_sep sep s :
  Forall (fun seg => has_char sep seg = false) (JSString.split sep s).
Proof.
  induction s as [|c s IH]; simpl; [repeat constructor|].
  destruct (Ascii.eqb c sep) eqn:Hc; [constructor; [reflexivity | exact IH]|].
  destruct (JSString.split sep s) as [|seg rest]; [repeat constructor; simpl; rewrite Hc; reflexivity|].
  inversion IH as [|? ? Hseg Hrest]; subst.
  constructor; [simpl; rewrite Hc, Hseg; reflexivity | exact Hrest].
Qed.

Lemma join_split s : Path.join_segments (JSString.split "/" s) = s.
Proof.
  induction s as [|c s IH]; simpl; [reflexivity|].
  pose proof (split_nonempty "/" s) as Hne.
  destruct (Ascii.eqb_spec c "/") as [->|Hc].
  - destruct (JSString.split "/" s) as [|seg rest]; [congruence|].
    change (Path.join_segments ("" :: seg :: rest))
      with ("" +:+ "/" +:+ Path.join_segments (seg :: rest)).
    rewrite IH. reflexivity.
  - destruct (JSString.split "/" s) as [|seg [|seg' rest]]; [congruence| |].
    + simpl in *. rewrite IH. reflexivity.
    + change (Path.join_segments (String c seg :: seg' :: rest))
        with (String c (seg +:+ "/" +:+ Path.join_segments (seg' :: rest))).
      change (Path.join_segments (seg :: seg' :: rest))
        with (seg +:+ "/" +:+ Path.join_segments (seg' :: rest)) in IH.
      rewrite IH. reflexivity.
Qed.

(** The entries of a directory are the keys [dir/name] with a proper
    [name]. *)
Lemma entry_name_Some dir p name :
  Fs.entry_name dir p = Some name ->
  p = dir +:+ "/" +:+ name /\ proper_segment name.
Proof.
  unfold Fs.entry_name.
  pose proof (join_split p) as Hjoin.
  pose proof (split_segments_without_sep "/" p) as Hseg.
  destruct (JSString.split "/" p) as [|d [|n [|]]]; try discriminate.
  destruct (bool_decide (d = dir)) eqn:Hd; [|discriminate].
  destruct (bool_decide (n = "")) eqn:H0; [discriminate|].
  destruct (bool_decide (n = ".")) eqn:H1; [discriminate|].
  destruct (bool_decide (n = "..")) eqn:H2; [discriminate|].
  intros [= <-]. cbn [andb negb] in *.
  apply bool_decide_eq_true in Hd as ->.
  apply bool_decide_eq_false in H0, H1, H2.
  apply Forall_cons in Hseg as [_ Hseg]. apply Forall_cons in Hseg as [Hn _].
  split; [symmetry; exact Hjoin | repeat split; assumption].
Qed.

Lemma entry_name_store_key name :
  proper_segment name -> Fs.entry_name outputDir (store_key name) = Some name.
Proof.
  intros (H0 & H1 & H2 & Hs). unfold Fs.entry_name, store_key.
  change ("/" +:+ name) with (String "/" name).
  rewrite split_app_sep, (split_without_sep _ name Hs).
  change (JSString.split "/" outputDir) with [outputDir].
  cbn [app]. rewrite bool_decide_eq_true_2 by reflexivity.
  rewrite !bool_decide_eq_false_2 by assumption. reflexivity.
Qed.

Lemma endsWith_slash_without name :
  has_char "/" name = false -> JSString.endsWith "/" name = false.
Proof.
  induction name as [|c s IH]; [reflexivity|].
  change (JSString.endsWith "/" (String c s))
    with (String.eqb "/" (String c s) || JSString.endsWith "/" s).
  cbn [has_char].
  intros [Hc Hs]%orb_false_iff. rewrite (IH Hs), orb_false_r.
  apply String.eqb_neq. intros [= <- _]. discriminate Hc.
Qed.

Lemma endsWith_slash_app a b :
  b <> "" -> JSString.endsWith "/" (a +:+ b) = JSString.endsWith "/" b.
Proof.
  intros Hb. induction a as [|c a IH]; [reflexivity|].
  change (JSString.endsWith "/" (String c a +:+ b))
    with (String.eqb "/" (String c (a +:+ b)) || JSString.endsWith "/" (a +:+ b)).
  rewrite IH.
  replace (String.eqb "/" (String c (a +:+ b))) with false; [reflexivity|].
  symmetry. apply String.eqb_neq. intros [= _ Hab].
  destruct a; [apply Hb; symmetry; exact Hab | discriminate Hab].
Qed.

(** [path.join(outputDir, name)] of an entry name is its key. *)
Lemma join_store_key name :
  proper_segment name -> Path.join outputDir name = store_key name.
Proof.
  intros (H0 & H1 & H2 & Hs). unfold Path.join.
  rewrite (decide_False (P := outputDir = "")) by discriminate.
  rewrite decide_False by assumption.
  fold (store_key name). unfold Path.normalize.
  rewrite decide_False by discriminate.
  change (Path.starts_with_slash (store_key name)) with false.
  assert (Hend : JSString.endsWith "/" (store_key name) = false).
  { unfold store_key. change ("/" +:+ name) with (String "/" name).
    rewrite endsWith_slash_app by discriminate.
    change (JSString.endsWith "/" (String "/" name))
      with (String.eqb "/" (String "/" name) || JSString.endsWith "/" name).
    rewrite (endsWith_slash_without name Hs), orb_false_r.
    apply String.eqb_neq. intros [= Hname]. apply H0. symmetry. exact Hname. }
  assert (Hnorm : Path.normalizeString (store_key name) (negb false) = store_key name).
  { unfold Path.normalizeString, store_key.
    change ("/" +:+ name) with (String "/" name).
    rewrite split_app_sep, (split_without_sep _ name Hs).
    change (JSString.split "/" outputDir) with [outputDir].
    cbn [app fold_left]. unfold Path.push_segment at 2.
    rewrite !decide_False by discriminate.
    unfold Path.push_segment. rewrite !decide_False by assumption.
    reflexivity. }
  rewrite Hend, Hnorm.
  rewrite decide_False by discriminate. reflexivity.
Qed.

(** ** Letter case and suffixes *)

Lemma toLowerCase_app a b :
  JSString.toLowerCase (a +:+ b)
  = JSString.toLowerCase a +:+ JSString.toLowerCase b.
Proof. induction a as [|x a IH]; simpl; [reflexivity | rewrite IH; reflexivity]. Qed.

Lemma endsWith_app t a : JSString.endsWith t (a +:+ t) = true.
Proof.
  induction a as [|x a IH].
  - destruct t; simpl; rewrite ?String.eqb_refl, ?Ascii.eqb_refl; reflexivity.
  - change (JSString.endsWith t (String x a +:+ t))
      with (String.eqb t (String x (a +:+ t)) || JSString.endsWith t (a +:+ t)).
    rewrite IH. apply orb_true_r.
Qed.

Lemma lower_char_slash y : Ascii.eqb (JSString.lower_char y) "/" = Ascii.eqb y "/".
Proof. destruct y as [[] [] [] [] [] [] [] []]; reflexivity. Qed.

Lemma lower_char_dot y : Ascii.eqb (JSString.lower_char y) "." = Ascii.eqb y ".".
Proof. destruct y as [[] [] [] [] [] [] [] []]; reflexivity. Qed.

Lemma endsWith_inv t : forall s,
  JSString.endsWith t s = true -> exists a, s = a +:+ t.
Proof.
  induction s as [|c s IH].
  - cbn [JSString.endsWith]. rewrite orb_false_r.
    intros ->%String.eqb_eq. exists "". reflexivity.
  - change (JSString.endsWith t (String c s))
      with (String.eqb t (String c s) || JSString.endsWith t s).
    intros [->%String.eqb_eq | Hs]%orb_true_iff; [exists ""; reflexivity|].
    destruct (IH Hs) as [a ->]. exists (String c a). reflexivity.
Qed.

Lemma toLowerCase_app_inv : forall a b s,
  JSString.toLowerCase s = a +:+ b ->
  exists s1 s2, s = s1 +:+ s2 /\
                JSString.toLowerCase s1 = a /\ JSString.toLowerCase s2 = b.
Proof.
  induction a as [|x a IH]; intros b s Hs.
  - exists "", s. repeat split. exact Hs.
  - destruct s as [|y s]; [discriminate|]. simpl in Hs. injection Hs as Hy Hs.
    destruct (IH b s Hs) as (s1 & s2 & -> & H1 & H2).
    exists (String y s1), s2. simpl. rewrite Hy, H1. repeat split. exact H2.
Qed.

(** A name whose lower-case form ends in [.] and [e] is a stem, a dot,
    and an extension whose lower-case form is [e]. *)
Lemma lower_suffix_inv e name :
  JSString.endsWith (String "." e) (JSString.toLowerCase name) = true ->
  exists stem ext, name = stem +:+ "." +:+ ext /\ JSString.toLowerCase ext = e.
Proof.
  intros [a Ha]%endsWith_inv.
  apply toLowerCase_app_inv in Ha as (stem & s2 & -> & _ & H2).
  destruct s2 as [|c ext]; [discriminate|]. simpl in H2. injection H2 as Hc He.
  assert (c = "."%char) as ->.
  { apply Ascii.eqb_eq. rewrite <- lower_char_dot, Hc. reflexivity. }
  exists stem, ext. split; [reflexivity | exact He].
Qed.

(** The pattern of the listing matches the raster names. *)
Lemma raster_test_spec name : raster_test name = true <-> raster_name name.
Proof.
  unfold raster_test, raster_name. split.
  - rewrite !orb_true_iff.
    intros [[[H|H]|H]|H]; apply lower_suffix_inv in H as (stem & ext & -> & He);
      exists stem, ext; (split; [reflexivity|]); rewrite He; simpl; tauto.
  - intros (stem & ext & -> & Hext).
    change ("." +:+ ext) with (String "." ext).
    rewrite toLowerCase_app.
    change (JSString.toLowerCase (String "." ext))
      with (String "." (JSString.toLowerCase ext)).
    simpl in Hext. rewrite !orb_true_iff.
    destruct Hext as [<-|[<-|[<-|[<-|[]]]]]; rewrite endsWith_app; tauto.
Qed.

(** ** [GET /api/images] *)

Lemma omap_NoDup {A B} (f : A -> option B) (l : list A) :
  NoDup l ->
  (forall x y z, f x = Some z -> f y = Some z -> x = y) ->
  NoDup (omap f l).
Proof.
  intros Hnd Hinj. induction Hnd as [|x l Hx Hnd IH]; simpl; [constructor|].
  destruct (f x) as [z|] eqn:Hfx; [|exact IH].
  constructor; [|exact IH].
  intros (y & Hy & Hfy)%list_elem_of_omap.
  apply Hx. rewrite (Hinj x y z Hfx Hfy). exact Hy.
Qed.

Lemma elem_of_dirs p d : p ∈ dirs d <-> is_Some (dir_times d !! p).
Proof. unfold dirs. apply elem_of_dom. Qed.

Lemma entry_born_is_Some d p :
  is_Some (entry_born d p) <-> is_Some (files d !! p) \/ p ∈ dirs d.
Proof.
  rewrite elem_of_dirs. unfold entry_born.
  destruct (files d !! p) as [f|]; split; eauto.
  intros [[x Hx]|H]; [discriminate | exact H].
Qed.

Lemma statSync_entry_born p d :
  Fs.statSync_birthtime p d
  = match entry_born d p with
    | Some t => inr t
    | None => inl (ENOENT p)
    end.
Proof.
  unfold Fs.statSync_birthtime, entry_born.
  destruct (files d !! p); [reflexivity|]. destruct (dir_times d !! p); reflexivity.
Qed.

(** [readdirSync] of the store lists each entry once, and exactly the
    proper names under which the directory holds a file or a
    sub-directory. *)
Lemma readdir_store d names :
  Fs.readdirSync outputDir d = inr names ->
  NoDup names /\
  forall name, name ∈ names <->
               is_Some (entry_born d (store_key name)) /\ proper_segment name.
Proof.
  unfold Fs.readdirSync. destruct (bool_decide (outputDir ∈ dirs d)); [|discriminate].
  intros [= <-]. split.
  - apply omap_NoDup; [apply NoDup_elements|].
    intros x y z [-> _]%entry_name_Some [-> _]%entry_name_Some. reflexivity.
  - intros name. rewrite list_elem_of_omap. split.
    + intros (p & Hp & Hname).
      apply entry_name_Some in Hname as [-> Hproper].
      split; [|exact Hproper].
      apply entry_born_is_Some.
      apply elem_of_elements, elem_of_union in Hp as [Hp|Hp]; [left|right; exact Hp].
      apply elem_of_dom in Hp. exact Hp.
    + intros [Hborn Hproper]. exists (store_key name).
      split; [|apply entry_name_store_key, Hproper].
      apply elem_of_elements, elem_of_union.
      apply entry_born_is_Some in Hborn as [Hf|Hd]; [left|right; exact Hd].
      apply elem_of_dom. exact Hf.
Qed.

(** Every listed name has an entry behind it, so [statSync] succeeds and
    the objects are built from the names in order. *)
Lemma image_entries_built d names :
  (forall name, name ∈ names ->
                is_Some (entry_born d (store_key name)) /\ proper_segment name) ->
  exists entries,
    image_entries d names = inr entries /\
    map entry_filename entries = names /\
    forall e, e ∈ entries ->
      url e = "/outputs/" +:+ entry_filename e /\
      entry_born d (store_key (entry_filename e)) = Some (created e).
Proof.
  induction names as [|name names IH]; intros Hall.
  - exists []. split; [reflexivity|]. split; [reflexivity|].
    intros e He. inversion He.
  - destruct (Hall name ltac:(left)) as [[t Ht] Hproper].
    destruct IH as (entries & Hent & Hnames & Hfields).
    { intros n Hn. apply Hall. right. exact Hn. }
    cbn [image_entries]. unfold image_entry.
    rewrite (join_store_key name Hproper), statSync_entry_born, Ht, Hent.
    eexists. split; [reflexivity|]. split; [simpl; rewrite Hnames; reflexivity|].
    intros e [->|He]%elem_of_cons; [|apply Hfields, He].
    split; [reflexivity | exact Ht].
Qed.

(** The listing of a store whose directory exists. *)
Lemma get_images_listing w :
  outputDir ∈ dirs (fs w) ->
  exists images,
    get_images w = Json 200 (Images images) /\
    NoDup (map entry_filename images) /\
    (forall name,
       name ∈ map entry_filename images <->
       is_Some (entry_born (fs w) (store_key name)) /\ proper_segment name /\
       raster_test name = true) /\
    (forall e, e ∈ images ->
       url e = "/outputs/" +:+ entry_filename e /\
       entry_born (fs w) (store_key (entry_filename e)) = Some (created e)).
Proof.
  intros Hdir. unfold get_images.
  destruct (Fs.readdirSync outputDir (fs w)) as [e|names] eqn:Hread.
  { unfold Fs.readdirSync in Hread.
    rewrite bool_decide_eq_true_2 in Hread by assumption. discriminate. }
  apply readdir_store in Hread as [Hnd Hnames].
  assert (Hfiltered : forall name, name ∈ List.filter raster_test names <->
            is_Some (entry_born (fs w) (store_key name)) /\ proper_segment name /\
            raster_test name = true).
  { intros name. rewrite list_elem_of_In, filter_In, <- list_elem_of_In, Hnames.
    tauto. }
  destruct (image_entries_built (fs w) (List.filter raster_test names))
    as (images & -> & Hmap & Hfields).
  { intros name Hn. apply Hfiltered in Hn. tauto. }
  exists images. split; [reflexivity|]. rewrite Hmap.
  split; [apply NoDup_ListNoDup, List.NoDup_filter, NoDup_ListNoDup, Hnd|].
  split; [exact Hfiltered | exact Hfields].
Qed.

(** C8: [GET /api/images] answers with exactly the entries of the store
    directory whose name is a raster name (it ends in [.jpg], [.jpeg],
    [.png] or [.gif], in any letter case), each once, with its filename,
    its URL under [/outputs/] and the creation time of the entry; the
    entries are the regular files of the directory and, if it has any,
    its sub-directories, so in a store without sub-directories they are
    exactly the files.  When the directory cannot be read the answer is
    the error "Error reading image directory". *)
Theorem listing_is_the_raster_entries (w : World) :
  (outputDir ∉ dirs (fs w) ->
   get_images w = Json 500 (Failure "Error reading image directory")) /\
  (outputDir ∈ dirs (fs w) ->
   exists images,
     get_images w = Json 200 (Images images) /\
     NoDup (map entry_filename images) /\
     (forall name,
        name ∈ map entry_filename images <->
        is_Some (entry_born (fs w) (store_key name)) /\ proper_segment name /\
        raster_name name) /\
     (forall name,
        store_key name ∉ dirs (fs w) ->
        (name ∈ map entry_filename images <->
         is_Some (files (fs w) !! store_key name) /\ proper_segment name /\
         raster_name name)) /\
     (forall e, e ∈ images ->
        url e = "/outputs/" +:+ entry_filename e /\
        entry_born (fs w) (store_key (entry_filename e)) = Some (created e))).
Proof.
  split; intros Hdir.
  - unfold get_images, Fs.readdirSync.
    rewrite bool_decide_eq_false_2 by assumption. reflexivity.
  - destruct (get_images_listing w Hdir) as (images & Hget & Hnd & Hnames & Hfields).
    exists images. split; [exact Hget|]. split; [exact Hnd|].
    split; [|split; [|exact Hfields]].
    + intros name. rewrite Hnames, raster_test_spec. reflexivity.
    + intros name Hflat.
      rewrite Hnames, raster_test_spec, entry_born_is_Some. tauto.
Qed.

Lemma mixed_store_has_dir : outputDir ∈ dirs (fs world_mixed_store).
Proof.
  apply (bool_decide_eq_true_1 (outputDir ∈ dirs (fs world_mixed_store))).
  vm_compute. reflexivity.
Defined.

Lemma listing_is_the_raster_entries_witness :
  outputDir ∈ dirs (fs world_mixed_store) /\
  exists images,
    get_images world_mixed_store = Json 200 (Images images) /\
    (forall name,
       name ∈ map entry_filename images <->
       is_Some (entry_born (fs world_mixed_store) (store_key name)) /\
       proper_segment name /\ raster_name name).
Proof.
  split; [exact mixed_store_has_dir|].
  destruct (proj2 (listing_is_the_raster_entries world_mixed_store)
              mixed_store_has_dir)
    as (images & Hget & _ & Hnames & _ & _).
  exists images. split; [exact Hget | exact Hnames].
Defined.

(** ** The upload filter and [POST /api/process-image] *)

Lemma message_not_filter_error e : message e <> "Only image files are allowed!".
Proof. destruct e; discriminate. Qed.

Lemma upload_single_calls now p w :
  calls (snd (upload_single now p w)) = calls w.
Proof.
  unfold upload_single. destruct p as [p|]; [|reflexivity].
  destruct (fileFilter p); [|reflexivity].
  destruct (destination now (fs w)) as [dest d].
  destruct (fileSize_limit <? _); [reflexivity|].
  destruct (Fs.writeFileSync _ _ _ _); reflexivity.
Qed.

Lemma upload_single_rejected_iff now p w :
  fst (upload_single now (Some p) w) = inl (PlainError "Only image files are allowed!")
  <-> fileFilter p = false.
Proof.
  unfold upload_single. destruct (fileFilter p).
  - split; [|discriminate].
    destruct (destination now (fs w)) as [dest d].
    destruct (fileSize_limit <? _); [discriminate|].
    destruct (Fs.writeFileSync _ _ _ _) as [e|d']; [|discriminate].
    cbn [fst]. intros [= He]. destruct (message_not_filter_error e He).
  - split; reflexivity.
Qed.

Lemma fileFilter_false_iff p :
  fileFilter p = false <->
  allowedTypes_test (JSString.toLowerCase (Path.extname (originalname p))) = false \/
  allowedTypes_test (mimetype p) = false.
Proof.
  unfold fileFilter. rewrite andb_false_iff. tauto.
Qed.

Section RouteProperties.
Context `{Canvas}.

(** An upload the filter refuses is answered by the error middleware and
    changes nothing: no file is staged and no call is made. *)
Lemma filter_rejects now p w :
  fileFilter p = false ->
  post_process_image now (Some p) w = (unsupported_response, w).
Proof.
  intros Hf. unfold post_process_image, upload_single. rewrite Hf. reflexivity.
Qed.

(** C6 (as amended): an upload whose lower-cased extension contains none
    of jpeg, jpg, png, gif, or whose MIME type contains none of them, is
    answered with the filter's error and leaves the world as it was, so
    no decode is attempted. *)
Theorem unmatched_type_rejected_before_decode now p w :
  allowedTypes_test (JSString.toLowerCase (Path.extname (originalname p))) = false \/
  allowedTypes_test (mimetype p) = false ->
  post_process_image now (Some p) w
  = (Json 500 (Failure "Only image files are allowed!"), w).
Proof. intros Hp. apply filter_rejects, fileFilter_false_iff, Hp. Qed.

(** C7 (as amended): the extension and the MIME type are tested against
    the pattern separately and never against each other.  Multer refuses
    an upload with the filter's error exactly when one of the two fails
    the pattern on its own; a refused upload is answered like any
    unsupported format and leaves the world as it was; and multer itself
    never calls the decoder. *)
Theorem upload_rejected_iff_one_side_unmatched now p w :
  (fst (upload_single now (Some p) w)
     = inl (PlainError "Only image files are allowed!") <->
   allowedTypes_test (JSString.toLowerCase (Path.extname (originalname p))) = false \/
   allowedTypes_test (mimetype p) = false) /\
  (fileFilter p = false ->
   post_process_image now (Some p) w
   = (Json 500 (Failure "Only image files are allowed!"), w)) /\
  calls (snd (upload_single now (Some p) w)) = calls w.
Proof.
  split; [|split].
  - rewrite upload_single_rejected_iff. apply fileFilter_false_iff.
  - apply filter_rejects.
  - apply upload_single_calls.
Qed.

End RouteProperties.

(** ** Runs of the routes on concrete requests *)

Lemma unmatched_type_rejected_before_decode_witness :
  (allowedTypes_test (JSString.toLowerCase (Path.extname (originalname upload_text))) = false \/
   allowedTypes_test (mimetype upload_text) = false) /\
  @post_process_image raw_canvas 5 (Some upload_text) fresh_world
  = (Json 500 (Failure "Only image files are allowed!"), fresh_world).
Proof.
  assert (Hext : allowedTypes_test
            (JSString.toLowerCase (Path.extname (originalname upload_text))) = false \/
          allowedTypes_test (mimetype upload_text) = false)
    by (left; vm_compute; reflexivity).
  split; [exact Hext|].
  exact (@unmatched_type_rejected_before_decode raw_canvas 5 upload_text
           fresh_world Hext).
Defined.

(** C6 (as stated) fails: [scan.pngx] has an extension outside the
    accepted set, yet the filter lets it through, and the image is loaded
    and processed. *)
Lemma pngx_upload_is_decoded :
  declared_in_accepted_set upload_pngx = false /\
  ~ @rejected_before_decode raw_canvas 5 upload_pngx fresh_world /\
  exists w',
    @post_process_image raw_canvas 5 (Some upload_pngx) fresh_world
    = (Json 200 (Processed "Image processed successfully"
                   "/outputs/processed-5-scan.png" "processed-5-scan.png"), w') /\
    CallLoadImage "uploads/5-scan.pngx" ∈ calls w'.
Proof.
  split; [vm_compute; reflexivity|]. split.
  - unfold rejected_before_decode. vm_compute. discriminate.
  - eexists. split; [vm_compute; reflexivity|]. apply list_elem_of_here.
Qed.

Lemma upload_rejected_iff_one_side_unmatched_witness :
  fileFilter upload_mismatch = true /\
  fst (upload_single 5 (Some upload_mismatch) fresh_world)
  <> inl (PlainError "Only image files are allowed!").
Proof.
  assert (Hf : fileFilter upload_mismatch = true) by (vm_compute; reflexivity).
  split; [exact Hf|].
  intros Hrej.
  destruct (@upload_rejected_iff_one_side_unmatched raw_canvas 5 upload_mismatch
              fresh_world) as [[Hto _] _].
  apply Hto, fileFilter_false_iff in Hrej. congruence.
Defined.

(** C7 (as stated) fails: [a.png] sent as [image/jpeg] declares two
    different formats, yet it is not rejected: the image is loaded and
    processed. *)
Lemma mismatched_upload_is_decoded :
  declarations_agree upload_mismatch = false /\
  ~ @rejected_before_decode raw_canvas 5 upload_mismatch fresh_world /\
  exists w',
    @post_process_image raw_canvas 5 (Some upload_mismatch) fresh_world
    = (Json 200 (Processed "Image processed successfully"
                   "/outputs/processed-5-a.png" "processed-5-a.png"), w') /\
    CallLoadImage "uploads/5-a.png" ∈ calls w'.
Proof.
  split; [vm_compute; reflexivity|]. split.
  - unfold rejected_before_decode. vm_compute. discriminate.
  - eexists. split; [vm_compute; reflexivity|]. apply list_elem_of_here.
Qed.

(** C2 (as stated) fails: [a.png] and [a.jpg] uploaded in the same
    millisecond are both processed with success and are both given the
    filename [processed-5-a.png]; the second request replaces the entry
    the first one stored, and the store lists one image. *)
Lemma same_millisecond_uploads_collide :
  @post_process_image raw_canvas 5 (Some upload_a_png) fresh_world
  = (Json 200 (Processed "Image processed successfully"
                 "/outputs/processed-5-a.png" "processed-5-a.png"),
     world_after_a_png) /\
  fst (@post_process_image raw_canvas 5 (Some upload_a_jpg) world_after_a_png)
  = Json 200 (Processed "Image processed successfully"
                "/outputs/processed-5-a.png" "processed-5-a.png") /\
  ~ @save_keeps_entries raw_canvas 5 upload_a_jpg world_after_a_png.
Proof.
  split; [vm_compute; reflexivity|].
  split; [vm_compute; reflexivity|].
  intros Hkeep.
  specialize (Hkeep _ _ (surjective_pairing _) ltac:(vm_compute; reflexivity)
                "outputs/processed-5-a.png" "processed-5-a.png"
                {| content := [2; 2; 85;85;85;255; 85;85;85;255; 85;85;85;255; 85;85;85;255];
                   birthtime := 5 |}
                ltac:(vm_compute; reflexivity) ltac:(vm_compute; reflexivity)).
  vm_compute in Hkeep. discriminate Hkeep.
Qed.

Lemma save_overwrites_by_name_witness :
  is_success
    (fst (@process_image_handler raw_canvas 5 (Some (staged upload_a_png))
            (staged_world upload_a_png))) = true /\
  exists img png,
    raw_decode red2x2 = Some img /\
    raw_encode (grayscale_image img) = Some png /\
    files (fs (snd (@process_image_handler raw_canvas 5 (Some (staged upload_a_png))
                      (staged_world upload_a_png))))
    = delete "uploads/5-a.png"
        (<[ "outputs/processed-5-a.png" := {| content := png; birthtime := 5 |} ]>
           (files (fs (staged_world upload_a_png)))).
Proof.
  assert (Hs : is_success
            (fst (@process_image_handler raw_canvas 5 (Some (staged upload_a_png))
                    (staged_world upload_a_png))) = true)
    by (vm_compute; reflexivity).
  split; [exact Hs|].
  destruct (@save_overwrites_by_name raw_canvas 5 (staged upload_a_png)
              (staged_world upload_a_png) _ _ (surjective_pairing _) Hs)
    as (_ & _ & st & img & png & Hst & Hdec & Henc & Hfiles).
  assert (Hred : content st = red2x2).
  { assert (Hl : files (fs (staged_world upload_a_png)) !! path (staged upload_a_png)
                 = Some {| content := red2x2; birthtime := 5 |})
      by (vm_compute; reflexivity).
    rewrite Hl in Hst. injection Hst as <-. reflexivity. }
  exists img, png. rewrite <- Hred.
  split; [exact Hdec|]. split; [exact Henc | exact Hfiles].
Defined.


Lemma staged_upload_deleted_iff_success_witness :
  files (fs (staged_world upload_a_png)) !! path (staged upload_a_png)
  = Some {| content := red2x2; birthtime := 5 |} /\
  (files (fs (snd (@process_image_handler raw_canvas 5 (Some (staged upload_a_png))
                     (staged_world upload_a_png))))
     !! path (staged upload_a_png) = None <->
   is_success
     (fst (@process_image_handler raw_canvas 5 (Some (staged upload_a_png))
             (staged_world upload_a_png))) = true).
Proof.
  assert (Hf : files (fs (staged_world upload_a_png)) !! path (staged upload_a_png)
               = Some {| content := red2x2; birthtime := 5 |})
    by (vm_compute; reflexivity).
  split; [exact Hf|].
  exact (proj2 (proj2
    (@staged_upload_deleted_iff_success raw_canvas 5 (staged upload_a_png)
       (staged_world upload_a_png) _ _ _ Hf (surjective_pairing _)))).
Defined.

(** ** [GET /api/download/:filename] *)

(** C5 fails on the code: the filename [../server.js] names no entry of
    the store, and the route answers it by sending [server.js], a file
    outside the store directory. *)
Theorem download_escapes_store :
  Fs.readdirSync outputDir (fs world_with_source) = inr ["processed-5-a.png"] /\
  Path.join outputDir "../server.js" = "server.js" /\
  get_download "../server.js" world_with_source
  = Download "server.js" [99; 111; 110; 115; 116].
Proof. vm_compute. repeat split. Qed.

(* ================================================================== *)
(** * Further properties of the code *)
(* ================================================================== *)

(** ** The pixel loop on any array *)

Lemma gray_body_length data i : length (gray_body data i) = length data.
Proof. unfold gray_body, store. rewrite !length_insert. reflexivity. Qed.

Lemma gray_body_other data i j :
  j <> i -> j <> (i + 1)%nat -> j <> (i + 2)%nat ->
  gray_body data i !! j = data !! j.
Proof.
  intros H0 H1 H2. unfold gray_body, store.
  rewrite !list_lookup_insert_ne by congruence. reflexivity.
Qed.

(** The loop keeps the length, the elements before [i], and, started at a
    multiple of four, every fourth element. *)
Lemma gray_loop_frame fuel : forall i data,
  length (gray_loop fuel i data) = length data /\
  forall j, (j < i)%nat \/ (i mod 4 = 0 /\ j mod 4 = 3)%nat ->
            gray_loop fuel i data !! j = data !! j.
Proof.
  induction fuel as [|fuel IH]; intros i data; [split; reflexivity|].
  cbn [gray_loop]. destruct (decide (i < length data)%nat); [|split; reflexivity].
  destruct (IH (i + 4)%nat (gray_body data i)) as [Hlen Hkeep].
  split; [rewrite Hlen; apply gray_body_length|].
  intros j Hj.
  pose proof (Nat.div_mod_eq i 4) as Hi4. pose proof (Nat.div_mod_eq j 4) as Hj4.
  rewrite Hkeep.
  - destruct Hj as [Hj|[Hi Hj]]; [apply gray_body_other; lia|].
    rewrite Hi in Hi4. rewrite Hj in Hj4.
    generalize dependent (i / 4)%nat. generalize dependent (j / 4)%nat.
    intros qj Hqj qi Hqi. apply gray_body_other; lia.
  - destruct Hj as [Hj|[Hi Hj]]; [left; lia|right].
    split; [|exact Hj].
    replace (i + 4)%nat with (i + 1 * 4)%nat by lia.
    rewrite Nat.Div0.mod_add. exact Hi.
Qed.

(** X1: whatever the array holds and whatever its length, the loop of
    [processImage] returns an array of the same length in which every
    fourth element (index 3, 7, 11, ...) is the one that was there. *)
Theorem grayscale_any_array (data : list Z) :
  length (grayscale data) = length data /\
  forall p : nat, grayscale data !! (4 * p + 3)%nat = data !! (4 * p + 3)%nat.
Proof.
  unfold grayscale.
  destruct (gray_loop_frame (length data) 0 data) as [Hlen Hkeep].
  split; [exact Hlen|].
  intros p. apply Hkeep. right. split; [reflexivity|].
  replace (4 * p + 3)%nat with (3 + p * 4)%nat by lia.
  rewrite Nat.Div0.mod_add. reflexivity.
Qed.

Lemma gray_level_between r g b :
  Z.min r (Z.min g b) <= gray_level r g b <= Z.max r (Z.max g b).
Proof.
  unfold gray_level. split.
  - apply Z.div_le_lower_bound; lia.
  - apply Z.lt_succ_r, Z.div_lt_upper_bound; lia.
Qed.

(** X2: in a valid buffer the value stored in the colour channels of a
    pixel is never below the smallest nor above the largest of the
    pixel's original R, G and B. *)
Theorem gray_value_between_channels (img : ImageData) (p : nat) (r g b a : Z) :
  valid_buffer img ->
  data img !! (4 * p)%nat = Some r ->
  data img !! (4 * p + 1)%nat = Some g ->
  data img !! (4 * p + 2)%nat = Some b ->
  data img !! (4 * p + 3)%nat = Some a ->
  exists v,
    data (grayscale_image img) !! (4 * p)%nat = Some v /\
    data (grayscale_image img) !! (4 * p + 1)%nat = Some v /\
    data (grayscale_image img) !! (4 * p + 2)%nat = Some v /\
    Z.min r (Z.min g b) <= v <= Z.max r (Z.max g b).
Proof.
  intros (_ & _ & _ & Hok) H0 H1 H2 H3.
  exists (gray_level r g b).
  unfold grayscale_image; cbn [data].
  rewrite grayscale_pixels by assumption.
  destruct (gray_pixels_pixel p _ _ _ _ _ H0 H1 H2 H3) as (Hr & Hg & Hb & _).
  repeat split; try assumption; apply gray_level_between.
Qed.

Lemma gray_value_between_channels_witness :
  valid_buffer dark_pixel /\
  exists v,
    data (grayscale_image dark_pixel) !! 0%nat = Some v /\ 0 <= v <= 1.
Proof.
  split; [exact dark_pixel_valid|].
  destruct (gray_value_between_channels dark_pixel 0 1 1 0 255 dark_pixel_valid
              eq_refl eq_refl eq_refl eq_refl) as (v & Hv & _ & _ & Hb).
  exists v. split; [exact Hv | exact Hb].
Defined.

(** X3: a pixel of a valid buffer that is already gray (R = G = B) comes
    out of the transform with all four elements unchanged. *)
Theorem gray_pixel_is_kept (img : ImageData) (p : nat) (c a : Z) :
  valid_buffer img ->
  data img !! (4 * p)%nat = Some c ->
  data img !! (4 * p + 1)%nat = Some c ->
  data img !! (4 * p + 2)%nat = Some c ->
  data img !! (4 * p + 3)%nat = Some a ->
  data (grayscale_image img) !! (4 * p)%nat = Some c /\
  data (grayscale_image img) !! (4 * p + 1)%nat = Some c /\
  data (grayscale_image img) !! (4 * p + 2)%nat = Some c /\
  data (grayscale_image img) !! (4 * p + 3)%nat = Some a.
Proof.
  intros (_ & _ & _ & Hok) H0 H1 H2 H3.
  unfold grayscale_image; cbn [data].
  rewrite grayscale_pixels by assumption.
  destruct (gray_pixels_pixel p _ _ _ _ _ H0 H1 H2 H3) as (Hr & Hg & Hb & Ha).
  rewrite gray_level_same in Hr, Hg, Hb. repeat split; assumption.
Qed.

Lemma gray_pixel_is_kept_witness :
  valid_buffer (grayscale_image dark_pixel) /\
  data (grayscale_image (grayscale_image dark_pixel)) !! 0%nat = Some 1.
Proof.
  assert (Hv : valid_buffer (grayscale_image dark_pixel)).
  { unfold valid_buffer, byte_ok. vm_compute.
    repeat split; try discriminate; repeat constructor; discriminate. }
  split; [exact Hv|].
  exact (proj1 (gray_pixel_is_kept (grayscale_image dark_pixel) 0 1 255 Hv
                  eq_refl eq_refl eq_refl eq_refl)).
Defined.

(** ** Staged and output filenames *)

Lemma has_char_app c a b :
  has_char c (a +:+ b) = has_char c a || has_char c b.
Proof.
  induction a as [|x a IH]; simpl; [reflexivity|].
  rewrite IH, orb_assoc. reflexivity.
Qed.

Lemma pretty_N_char_digit d c :
  c <> "0"%char -> c <> "1"%char -> c <> "2"%char -> c <> "3"%char ->
  c <> "4"%char -> c <> "5"%char -> c <> "6"%char -> c <> "7"%char ->
  c <> "8"%char -> c <> "9"%char ->
  Ascii.eqb (pretty_N_char d) c = false.
Proof.
  intros. apply Ascii.eqb_neq. unfold pretty_N_char.
  repeat case_match; congruence.
Qed.

(** The decimal text of a number holds digits only. *)
Lemma pretty_N_go_has_char c x : forall s,
  (forall d, Ascii.eqb (pretty_N_char d) c = false) ->
  has_char c s = false -> has_char c (pretty_N_go x s) = false.
Proof.
  induction (N.lt_wf_0 x) as [x _ IH]; intros s Hc Hs.
  destruct (decide (x = 0)%N) as [->|Hx]; [rewrite pretty_N_go_0; exact Hs|].
  rewrite pretty_N_go_step by lia.
  apply IH; [apply N.div_lt; lia | exact Hc|].
  simpl. rewrite Hc, Hs. reflexivity.
Qed.

Lemma of_number_has_char c n :
  (forall d, Ascii.eqb (pretty_N_char d) c = false) ->
  has_char c (JSString.of_number n) = false.
Proof.
  intros Hc. unfold JSString.of_number, pretty, pretty_N.
  destruct (decide (n = 0)%N).
  - specialize (Hc 0%N). simpl in *. rewrite Hc. reflexivity.
  - apply pretty_N_go_has_char; [exact Hc | reflexivity].
Qed.

Lemma of_number_no_dash n : has_char "-" (JSString.of_number n) = false.
Proof. apply of_number_has_char. intros d. apply pretty_N_char_digit; discriminate. Qed.

Lemma of_number_no_dot n : has_char "." (JSString.of_number n) = false.
Proof. apply of_number_has_char. intros d. apply pretty_N_char_digit; discriminate. Qed.

Lemma of_number_no_slash n : has_char "/" (JSString.of_number n) = false.
Proof. apply of_number_has_char. intros d. apply pretty_N_char_digit; discriminate. Qed.

(** Two texts cut at their first [c] agree piece by piece. *)
Lemma app_sep_inj c : forall a1 a2 r1 r2 : string,
  has_char c a1 = false -> has_char c a2 = false ->
  a1 +:+ String c r1 = a2 +:+ String c r2 -> a1 = a2 /\ r1 = r2.
Proof.
  induction a1 as [|x a1 IH]; intros [|y a2] r1 r2 H1 H2 Heq; simpl in *.
  - injection Heq as ->. split; reflexivity.
  - injection Heq as <- _. rewrite Ascii.eqb_refl in H2. discriminate.
  - injection Heq as -> _. rewrite Ascii.eqb_refl in H1. discriminate.
  - injection Heq as -> Heq.
    apply orb_false_iff in H1 as [_ H1]. apply orb_false_iff in H2 as [_ H2].
    destruct (IH a2 r1 r2 H1 H2 Heq) as [-> ->]. split; reflexivity.
Qed.

Lemma split_first_app sep a b :
  has_char sep a = false ->
  JSString.split_first sep (a +:+ b) = a +:+ JSString.split_first sep b.
Proof.
  unfold JSString.split_first. induction a as [|x a IH]; [reflexivity|].
  simpl. intros [Hx Ha]%orb_false_iff. rewrite Hx.
  specialize (IH Ha). pose proof (split_nonempty sep (a +:+ b)) as Hne.
  destruct (JSString.split sep (a +:+ b)); [congruence|].
  simpl in *. rewrite IH. reflexivity.
Qed.

Lemma split_first_no_char c sep s :
  has_char c s = false -> has_char c (JSString.split_first sep s) = false.
Proof.
  unfold JSString.split_first. induction s as [|x s IH]; [reflexivity|].
  simpl. intros [Hx Hs]%orb_false_iff.
  destruct (Ascii.eqb x sep); [reflexivity|].
  specialize (IH Hs). pose proof (split_nonempty sep s) as Hne.
  destruct (JSString.split sep s); [congruence|].
  simpl in *. rewrite Hx, IH. reflexivity.
Qed.

(** X4: two uploads are staged under the same filename exactly when they
    arrive at the same [Date.now()] with the same original name. *)
Theorem staged_filename_eq_iff (n1 n2 : N) (p1 p2 : Part) :
  staged_filename n1 p1 = staged_filename n2 p2 <->
  n1 = n2 /\ originalname p1 = originalname p2.
Proof.
  unfold staged_filename. split; [|intros [-> ->]; reflexivity].
  change ("-" +:+ originalname p1) with (String "-" (originalname p1)).
  change ("-" +:+ originalname p2) with (String "-" (originalname p2)).
  intros [Hn Ho]%app_sep_inj; try apply of_number_no_dash.
  split; [|exact Ho]. apply (inj pretty). exact Hn.
Qed.

(** X5: the output filenames of two staged uploads are the same exactly
    when the uploads arrived at the same [Date.now()] and their original
    names agree up to the first ['.']; uploads of different milliseconds
    never share an output filename. *)
Theorem output_filename_eq_iff (n1 n2 : N) (p1 p2 : Part) (f1 f2 : ReqFile) :
  filename f1 = staged_filename n1 p1 ->
  filename f2 = staged_filename n2 p2 ->
  (outputFilename f1 = outputFilename f2 <->
   n1 = n2 /\
   JSString.split_first "." (originalname p1)
   = JSString.split_first "." (originalname p2)).
Proof.
  intros Hf1 Hf2. rewrite outputFilename_eq_iff, Hf1, Hf2.
  unfold staged_filename.
  rewrite (split_first_app "." (JSString.of_number n1)) by apply of_number_no_dot.
  rewrite (split_first_app "." (JSString.of_number n2)) by apply of_number_no_dot.
  rewrite !(split_first_app "." "-") by reflexivity.
  change ("-" +:+ ?s) with (String "-" s).
  split.
  - intros [Hn Ho]%app_sep_inj; try apply of_number_no_dash.
    split; [|exact Ho]. apply (inj pretty). exact Hn.
  - intros [-> ->]. reflexivity.
Qed.

Lemma output_filename_eq_iff_witness :
  outputFilename (staged upload_a_png) = outputFilename (staged upload_a_jpg) <->
  5%N = 5%N /\
  JSString.split_first "." (originalname upload_a_png)
  = JSString.split_first "." (originalname upload_a_jpg).
Proof.
  exact (output_filename_eq_iff 5 5 upload_a_png upload_a_jpg
           (staged upload_a_png) (staged upload_a_jpg) eq_refl eq_refl).
Defined.

Lemma outputFilename_raster (f : ReqFile) :
  raster_test (outputFilename f) = true.
Proof.
  unfold raster_test, outputFilename.
  rewrite !toLowerCase_app.
  change (JSString.toLowerCase ".png") with ".png".
  set (stem := JSString.toLowerCase (JSString.split_first "." (filename f))).
  set (pre := JSString.toLowerCase "processed-").
  assert (Hpng : JSString.endsWith ".png" (pre +:+ stem +:+ ".png") = true).
  { induction pre as [|x pre IH]; [exact (endsWith_app ".png" stem)|].
    change (JSString.endsWith ".png" (String x pre +:+ stem +:+ ".png"))
      with (String.eqb ".png" (String x (pre +:+ stem +:+ ".png"))
            || JSString.endsWith ".png" (pre +:+ stem +:+ ".png")).
    rewrite IH. apply orb_true_r. }
  rewrite Hpng. rewrite !orb_true_r. reflexivity.
Qed.

(** X6: whatever the staged file is called, its output filename passes the
    test that [GET /api/images] applies to the names of the store, and it
    holds a ['/'] only if the staged filename does. *)
Theorem output_filename_passes_listing_filter (f : ReqFile) :
  raster_test (outputFilename f) = true /\
  (has_char "/" (filename f) = false -> has_char "/" (outputFilename f) = false).
Proof.
  split; [apply outputFilename_raster|].
  intros Hs. unfold outputFilename.
  rewrite !has_char_app, (split_first_no_char "/" "." _ Hs). reflexivity.
Qed.

(** ** Paths under the two directories of the server *)

Lemma proper_segment_outputDir : proper_segment outputDir.
Proof. repeat split; discriminate. Qed.

Lemma proper_segment_uploadDir : proper_segment uploadDir.
Proof. repeat split; discriminate. Qed.

(** [path.join(dir, name)] of two proper segments puts a ['/'] between
    them. *)
Lemma join_dir_entry dir name :
  proper_segment dir -> proper_segment name ->
  Path.join dir name = dir +:+ "/" +:+ name.
Proof.
  intros (D0 & D1 & D2 & Ds) (H0 & H1 & H2 & Hs). unfold Path.join.
  rewrite !decide_False by assumption.
  change ("/" +:+ name) with (String "/" name).
  unfold Path.normalize.
  assert (Hne : forall s, dir +:+ s <> "").
  { intros s. destruct dir; [congruence | discriminate]. }
  rewrite decide_False by apply Hne.
  assert (Habs : Path.starts_with_slash (dir +:+ String "/" name) = false).
  { destruct dir as [|c dir]; [congruence|]. simpl in *.
    apply orb_false_iff in Ds as [Hc _]. exact Hc. }
  assert (Hend : JSString.endsWith "/" (dir +:+ String "/" name) = false).
  { rewrite endsWith_slash_app by discriminate.
    change (JSString.endsWith "/" (String "/" name))
      with (String.eqb "/" (String "/" name) || JSString.endsWith "/" name).
    rewrite (endsWith_slash_without name Hs), orb_false_r.
    apply String.eqb_neq. intros [= Hname]. apply H0. symmetry. exact Hname. }
  assert (Hnorm : Path.normalizeString (dir +:+ String "/" name) true
                  = dir +:+ String "/" name).
  { unfold Path.normalizeString.
    rewrite split_app_sep, (split_without_sep _ name Hs), (split_without_sep _ dir Ds).
    cbn [app fold_left]. unfold Path.push_segment.
    rewrite !decide_False by assumption. reflexivity. }
  rewrite Habs, Hend. cbn [negb]. rewrite Hnorm.
  rewrite decide_False by apply Hne. reflexivity.
Qed.

Lemma dirname_dir_entry dir name :
  proper_segment dir -> proper_segment name ->
  Path.dirname (dir +:+ "/" +:+ name) = dir.
Proof.
  intros (_ & _ & _ & Ds) (_ & _ & _ & Hs). unfold Path.dirname.
  change ("/" +:+ name) with (String "/" name).
  rewrite split_app_sep, (split_without_sep _ name Hs), (split_without_sep _ dir Ds).
  reflexivity.
Qed.

Lemma proper_staged_filename now p :
  has_char "/" (originalname p) = false ->
  proper_segment (staged_filename now p).
Proof.
  intros Hs.
  assert (Hdash : has_char "-" (staged_filename now p) = true).
  { unfold staged_filename. rewrite !has_char_app. simpl. apply orb_true_r. }
  repeat split; try (intros Heq; rewrite Heq in Hdash; discriminate Hdash).
  unfold staged_filename. rewrite !has_char_app, of_number_no_slash, Hs.
  reflexivity.
Qed.

Lemma proper_outputFilename f :
  has_char "/" (filename f) = false -> proper_segment (outputFilename f).
Proof.
  intros Hs. unfold outputFilename. repeat split; try discriminate.
  rewrite !has_char_app, (split_first_no_char "/" "." _ Hs). reflexivity.
Qed.

(** ** [GET /api/download/:filename] on names of entries *)

Lemma chop_slash_id s :
  JSString.endsWith "/" s = false -> Fs.chop_slash s = s.
Proof.
  induction s as [|c rest IH]; [reflexivity|].
  change (JSString.endsWith "/" (String c rest))
    with (String.eqb "/" (String c rest) || JSString.endsWith "/" rest).
  intros [Heq Hrest]%orb_false_iff. cbn [Fs.chop_slash].
  rewrite (IH Hrest).
  destruct (Ascii.eqb_spec c "/") as [->|Hc]; [|reflexivity].
  destruct (bool_decide (rest = "")) eqn:Hr; [|reflexivity].
  apply bool_decide_eq_true in Hr. subst rest. discriminate Heq.
Qed.

Lemma dir_key_id p : JSString.endsWith "/" p = false -> Fs.dir_key p = p.
Proof.
  destruct p as [|c rest]; [reflexivity|].
  change (JSString.endsWith "/" (String c rest))
    with (String.eqb "/" (String c rest) || JSString.endsWith "/" rest).
  intros [_ Hrest]%orb_false_iff. cbn [Fs.dir_key].
  rewrite (chop_slash_id rest Hrest). reflexivity.
Qed.

Lemma store_key_no_trailing_slash name :
  proper_segment name -> JSString.endsWith "/" (store_key name) = false.
Proof.
  intros (H0 & _ & _ & Hs). unfold store_key.
  change ("/" +:+ name) with (String "/" name).
  rewrite endsWith_slash_app by discriminate.
  change (JSString.endsWith "/" (String "/" name))
    with (String.eqb "/" (String "/" name) || JSString.endsWith "/" name).
  rewrite (endsWith_slash_without name Hs), orb_false_r.
  apply String.eqb_neq. intros [= Hname]. apply H0. symmetry. exact Hname.
Qed.

Lemma last_segment_store_key name :
  proper_segment name -> last_segment (store_key name) = name.
Proof.
  intros (_ & _ & _ & Hs). unfold last_segment, store_key.
  change ("/" +:+ name) with (String "/" name).
  rewrite split_app_sep, (split_without_sep _ name Hs). reflexivity.
Qed.

(** What the route answers to the name of an entry of the store. *)
Lemma get_download_proper name w :
  proper_segment name ->
  get_download name w
  = match files (fs w) !! store_key name with
    | Some f =>
        if dot_name name then Json 500 (Failure "Not Found")
        else Download (store_key name) (content f)
    | None =>
        if bool_decide (store_key name ∈ dirs (fs w)) then
          (if dot_name name then Json 500 (Failure "Not Found") else NotFoundPage)
        else Json 404 (Failure "File not found")
    end.
Proof.
  intros Hp. unfold get_download, res_download, Fs.existsSync.
  rewrite (join_store_key name Hp).
  rewrite (dir_key_id _ (store_key_no_trailing_slash name Hp)).
  rewrite (last_segment_store_key name Hp).
  destruct (files (fs w) !! store_key name) as [f|] eqn:Hf.
  - rewrite bool_decide_eq_true_2 by eauto. cbn [orb].
    destruct (dot_name name); reflexivity.
  - rewrite bool_decide_eq_false_2 by (intros [x Hx]; discriminate). cbn [orb].
    destruct (bool_decide (store_key name ∈ dirs (fs w))); [|reflexivity].
    destruct (dot_name name); reflexivity.
Qed.

Lemma get_download_entry name w f :
  proper_segment name -> dot_name name = false ->
  files (fs w) !! store_key name = Some f ->
  get_download name w = Download (store_key name) (content f).
Proof.
  intros Hp Hdot Hf. rewrite (get_download_proper name w Hp), Hf, Hdot.
  reflexivity.
Qed.



(** ** [GET /api/images] together with the other routes *)



(** ** [POST /api/process-image] from the upload to the store *)

Lemma mkdirSync_dirs now q d p :
  p ∈ dirs (Fs.mkdirSync now q d) <-> p = q \/ p ∈ dirs d.
Proof.
  unfold dirs, Fs.mkdirSync; cbn [dir_times].
  rewrite dom_insert_L, elem_of_union, elem_of_singleton. reflexivity.
Qed.

Lemma destination_files now d : files (snd (destination now d)) = files d.
Proof. unfold destination. destruct (negb _); reflexivity. Qed.

Lemma destination_dirs now d p :
  p ∈ dirs d -> p ∈ dirs (snd (destination now d)).
Proof.
  unfold destination. destruct (negb _); [|tauto].
  intros Hp. cbn [snd]. apply mkdirSync_dirs. right. exact Hp.
Qed.

Lemma destination_fst now d : fst (destination now d) = uploadDir.
Proof. unfold destination. destruct (negb _); reflexivity. Qed.

Lemma writeFileSync_dirname now p buf d d' :
  Fs.writeFileSync now p buf d = inr d' -> Path.dirname p ∈ dirs d.
Proof.
  unfold Fs.writeFileSync.
  destruct (bool_decide (p ∈ dirs d)); [discriminate|].
  destruct (bool_decide (Path.dirname p ∈ dirs d)) eqn:Hd; [|discriminate].
  intros _. apply bool_decide_eq_true in Hd. exact Hd.
Qed.

(** What multer leaves behind when it hands a staged file to the
    handler. *)
Lemma upload_single_staged now p w f w1 :
  upload_single now (Some p) w = (inr (Some f), w1) ->
  f = {| part := p; filename := staged_filename now p;
         path := Path.join uploadDir (staged_filename now p) |} /\
  calls w1 = calls w /\
  (forall q, q ∈ dirs (fs w) -> q ∈ dirs (fs w1)) /\
  exists t,
    files (fs w1)
    = <[ path f := {| content := bytes p; birthtime := t |} ]> (files (fs w)).
Proof.
  unfold upload_single. destruct (fileFilter p); [|discriminate].
  pose proof (destination_files now (fs w)) as Hfiles.
  pose proof (destination_dirs now (fs w)) as Hdirs.
  pose proof (destination_fst now (fs w)) as Hdest.
  destruct (destination now (fs w)) as [dest d]. cbn [fst snd] in *. subst dest.
  destruct (fileSize_limit <? _); [discriminate|].
  destruct (Fs.writeFileSync _ _ _ _) as [e|d'] eqn:Hwr; [discriminate|].
  intros [= <- <-]. apply writeFileSync_files in Hwr as [Hf Hd].
  cbn [with_fs fs calls path]. rewrite Hf, Hd, Hfiles.
  repeat split; [exact Hdirs|]. eexists. reflexivity.
Qed.

Section UploadToStore.
Context `{Canvas}.

Lemma error_middleware_fails e : is_success (error_middleware e) = false.
Proof. destruct e as [code msg|msg]; simpl; [destruct (decide _)|]; reflexivity. Qed.

(** A successful request, step by step. *)
Lemma post_success_inv now p w r w' :
  post_process_image now (Some p) w = (r, w') ->
  is_success r = true ->
  let f := {| part := p; filename := staged_filename now p;
              path := Path.join uploadDir (staged_filename now p) |} in
  exists img png t1 t2,
    decodeImageData (bytes p) = Some img /\
    encodePNG (grayscale_image img) = Some png /\
    r = Json 200 (Processed "Image processed successfully"
                    ("/outputs/" +:+ outputFilename f) (outputFilename f)) /\
    files (fs w')
    = delete (path f)
        (<[ outputPath f := {| content := png; birthtime := t2 |} ]>
           (<[ path f := {| content := bytes p; birthtime := t1 |} ]>
              (files (fs w)))) /\
    Path.dirname (outputPath f) ∈ dirs (fs w').
Proof.
  unfold post_process_image.
  destruct (upload_single now (Some p) w) as [[e|[f|]] w1] eqn:Hup.
  - intros [= <- _] Hs. rewrite error_middleware_fails in Hs. discriminate.
  - apply upload_single_staged in Hup as (-> & _ & _ & t1 & Hstaged).
    set (f := {| part := p; filename := _; path := _ |}) in *.
    destruct (processImage now (path f) (outputPath f) w1) as [[m|e] w2] eqn:Hp.
    + rewrite (handler_succeeded _ _ _ _ _ Hp). intros [= <- <-] _.
      apply processImage_succeeded in Hp as (img & png & Hload & Henc & Hwrite & _).
      pose proof (writeFileSync_dirname _ _ _ _ _ Hwrite) as Hdir.
      apply writeFileSync_files in Hwrite as [Hfiles Hdirs].
      unfold loadImageData, Fs.readFileSync in Hload.
      rewrite Hstaged, lookup_insert_eq in Hload. cbn [content] in Hload.
      destruct (decodeImageData (bytes p)) as [img'|] eqn:Hdec; [|discriminate].
      injection Hload as ->.
      exists img, png, t1, (born_at now (outputPath f) (fs w1)).
      unfold dirs in *. cbn [fs files dir_times]. rewrite Hfiles, Hstaged, Hdirs.
      repeat split; assumption.
    + rewrite (handler_failed _ _ _ _ _ Hp). intros [= <- _]. discriminate.
  - intros [= <- _]. discriminate.
Qed.

(** X9: when [POST /api/process-image] answers with success, the bytes of
    the upload were decoded, the entry stored under the output filename
    holds the PNG encoding of the grayscale of that image, the staged
    copy of the upload is gone, and no other file was touched. *)
Theorem accepted_upload_is_stored_as_grayscale now p w r w' :
  post_process_image now (Some p) w = (r, w') ->
  is_success r = true ->
  let f := {| part := p; filename := staged_filename now p;
              path := Path.join uploadDir (staged_filename now p) |} in
  exists img png t1 t2,
    decodeImageData (bytes p) = Some img /\
    encodePNG (grayscale_image img) = Some png /\
    r = Json 200 (Processed "Image processed successfully"
                    ("/outputs/" +:+ outputFilename f) (outputFilename f)) /\
    files (fs w')
    = delete (path f)
        (<[ outputPath f := {| content := png; birthtime := t2 |} ]>
           (<[ path f := {| content := bytes p; birthtime := t1 |} ]>
              (files (fs w)))).
Proof.
  intros Hpost Hs f.
  destruct (post_success_inv now p w r w' Hpost Hs)
    as (img & png & t1 & t2 & Hdec & Henc & Hr & Hfiles & _).
  exists img, png, t1, t2. repeat split; assumption.
Qed.

(** X10: after a successful [POST /api/process-image] of an upload whose
    original name has no ['/'], the filename of the answer is listed by
    [GET /api/images] with the download URL of the answer, and
    [GET /api/download/:filename] sends the PNG encoding of the grayscale
    of the uploaded image under that filename. *)
Theorem processed_image_is_listed_and_downloadable now p w r w' :
  has_char "/" (originalname p) = false ->
  post_process_image now (Some p) w = (r, w') ->
  is_success r = true ->
  exists name img png images e,
    r = Json 200 (Processed "Image processed successfully"
                    ("/outputs/" +:+ name) name) /\
    decodeImageData (bytes p) = Some img /\
    encodePNG (grayscale_image img) = Some png /\
    get_download name w' = Download (store_key name) png /\
    get_images w' = Json 200 (Images images) /\
    e ∈ images /\ entry_filename e = name /\ url e = "/outputs/" +:+ name.
Proof.
  intros Hslash Hpost Hs.
  destruct (post_success_inv now p w r w' Hpost Hs)
    as (img & png & t1 & t2 & Hdec & Henc & Hr & Hfiles & Hdir).
  set (f := {| part := p; filename := staged_filename now p;
               path := Path.join uploadDir (staged_filename now p) |}) in *.
  pose proof (proper_staged_filename now p Hslash) as Hstaged.
  assert (Hname : proper_segment (outputFilename f)).
  { apply proper_outputFilename. cbn [f filename]. apply Hstaged. }
  assert (Hout : outputPath f = store_key (outputFilename f)).
  { unfold outputPath. apply join_store_key, Hname. }
  assert (Hin : path f = uploadDir +:+ "/" +:+ staged_filename now p).
  { cbn [f path]. apply join_dir_entry; [apply proper_segment_uploadDir | exact Hstaged]. }
  assert (Hstored : files (fs w') !! store_key (outputFilename f)
                    = Some {| content := png; birthtime := t2 |}).
  { rewrite Hfiles, Hout, lookup_delete_ne, lookup_insert_eq; [reflexivity|].
    rewrite Hin. discriminate. }
  assert (Hdirs : outputDir ∈ dirs (fs w')).
  { rewrite Hout in Hdir. unfold store_key in Hdir.
    rewrite dirname_dir_entry in Hdir;
      [exact Hdir | apply proper_segment_outputDir | exact Hname]. }
  destruct (get_images_listing w' Hdirs)
    as (images & Hget & _ & Hnames & Hfields).
  assert (Hlisted : outputFilename f ∈ map entry_filename images).
  { apply Hnames. split; [apply entry_born_is_Some; left; rewrite Hstored; eauto|].
    split; [exact Hname | apply outputFilename_raster]. }
  apply list_elem_of_fmap in Hlisted as (e & He & Hein).
  exists (outputFilename f), img, png, images, e.
  split; [exact Hr|]. split; [exact Hdec|]. split; [exact Henc|].
  split; [apply (get_download_entry _ _ _ Hname eq_refl Hstored)|].
  split; [exact Hget|]. split; [exact Hein|]. split; [symmetry; exact He|].
  rewrite He. apply Hfields, Hein.
Qed.

(** X11: an upload that passes the filter and is staged, but whose bytes
    the canvas library cannot decode, is answered with status 500; the
    only thing the request did after staging is the call of [loadImage],
    so the store is as it was and the staged copy stays on disk. *)
Theorem undecodable_upload_stays_staged now p w f w1 :
  upload_single now (Some p) w = (inr (Some f), w1) ->
  decodeImageData (bytes p) = None ->
  (exists msg,
     post_process_image now (Some p) w
     = (Json 500 (Failure msg), log (CallLoadImage (path f)) w1)) /\
  content <$> files (fs w1) !! path f = Some (bytes p).
Proof.
  intros Hup Hdec. unfold post_process_image. rewrite Hup.
  apply upload_single_staged in Hup as (_ & _ & _ & t1 & Hstaged).
  assert (Hfile : files (fs w1) !! path f
                  = Some {| content := bytes p; birthtime := t1 |})
    by (rewrite Hstaged; apply lookup_insert_eq).
  split; [|rewrite Hfile; reflexivity].
  unfold process_image_handler, processImage, loadImageData, Fs.readFileSync.
  cbn [log fs]. rewrite Hfile. cbn [content]. rewrite Hdec.
  eexists. reflexivity.
Qed.

(** X12: an upload that passes the filter but is larger than 10 MB is
    answered with status 400 and "File too large. Maximum size is 10MB";
    no file is left on disk and nothing is decoded. *)
Theorem oversize_upload_is_refused now p w :
  fileFilter p = true ->
  fileSize_limit < Z.of_nat (length (bytes p)) ->
  exists w',
    post_process_image now (Some p) w
    = (Json 400 (Failure "File too large. Maximum size is 10MB"), w') /\
    files (fs w') = files (fs w) /\ calls w' = calls w.
Proof.
  intros Hf Hsize. unfold post_process_image, upload_single. rewrite Hf.
  pose proof (destination_files now (fs w)) as Hfiles.
  destruct (destination now (fs w)) as [dest d]. cbn [snd] in Hfiles.
  apply Z.ltb_lt in Hsize. rewrite Hsize.
  eexists. split; [reflexivity|]. split; [exact Hfiles | reflexivity].
Qed.

(** X13: no request to [POST /api/process-image] removes a directory: if
    the store directory exists before the request it exists after it, and
    [GET /api/images] then answers with a listing, not with an error. *)
Theorem listing_stays_available now p w r w' :
  outputDir ∈ dirs (fs w) ->
  post_process_image now p w = (r, w') ->
  outputDir ∈ dirs (fs w') /\
  exists images, get_images w' = Json 200 (Images images).
Proof.
  intros Hdir Hpost.
  assert (Hdir' : outputDir ∈ dirs (fs w')).
  { revert Hpost. unfold post_process_image, upload_single.
    destruct p as [p|]; [|intros [= _ <-]; exact Hdir].
    destruct (fileFilter p); [|intros [= _ <-]; exact Hdir].
    pose proof (destination_dirs now (fs w) _ Hdir) as Hd.
    destruct (destination now (fs w)) as [dest d]. cbn [snd] in Hd.
    destruct (fileSize_limit <? _); [intros [= _ <-]; exact Hd|].
    destruct (Fs.writeFileSync _ _ _ _) as [e|d'] eqn:Hwr;
      [intros [= _ <-]; exact Hd|].
    apply writeFileSync_files in Hwr as [_ Hd'].
    set (f := {| part := p; filename := _; path := _ |}).
    set (w1 := with_fs d' w).
    assert (Hw1 : outputDir ∈ dirs (fs w1)) by (cbn; rewrite Hd'; exact Hd).
    clearbody w1 f.
    destruct (processImage now (path f) (outputPath f) w1) as [[m|e] w2] eqn:Hp.
    - rewrite (handler_succeeded _ _ _ _ _ Hp). intros [= _ <-]. cbn [fs].
      apply processImage_succeeded in Hp as (_ & png & _ & _ & Hwrite & _).
      apply writeFileSync_files in Hwrite as [_ Hd2].
      change (outputDir ∈ dirs (fs w2)). rewrite Hd2. exact Hw1.
    - rewrite (handler_failed _ _ _ _ _ Hp). intros [= _ <-].
      rewrite (processImage_failed _ _ _ _ _ _ Hp). exact Hw1. }
  split; [exact Hdir'|].
  destruct (get_images_listing w' Hdir') as (images & Hget & _).
  exists images. exact Hget.
Qed.

End UploadToStore.

(** ** Start-up and names without an extension *)

(** X14: if no regular file is called [outputs], then after the start-up
    code the store directory exists, no file has changed, running the
    start-up code again changes nothing, and [GET /api/images] answers
    with a listing. *)
Theorem startup_makes_store_available (now : N) (w : World) :
  files (fs w) !! outputDir = None ->
  let d := ensure_outputDir now (fs w) in
  outputDir ∈ dirs d /\ files d = files (fs w) /\
  (forall later, ensure_outputDir later d = d) /\
  exists images, get_images (with_fs d w) = Json 200 (Images images).
Proof.
  intros Hfile d.
  assert (Hd : outputDir ∈ dirs d /\ files d = files (fs w)).
  { unfold d, ensure_outputDir, Fs.existsSync. rewrite Hfile.
    rewrite bool_decide_eq_false_2 by (intros [x Hx]; discriminate).
    change (Fs.dir_key outputDir) with outputDir.
    destruct (bool_decide (outputDir ∈ dirs (fs w))) eqn:Hdir; cbn [orb negb].
    - apply bool_decide_eq_true in Hdir. split; [exact Hdir | reflexivity].
    - split; [apply mkdirSync_dirs; left; reflexivity | reflexivity]. }
  destruct Hd as [Hdir Hfiles]. split; [exact Hdir|]. split; [exact Hfiles|].
  split.
  - intros later. unfold ensure_outputDir at 1, Fs.existsSync.
    change (Fs.dir_key outputDir) with outputDir.
    rewrite (bool_decide_eq_true_2 (outputDir ∈ dirs d)) by exact Hdir.
    rewrite orb_true_r. reflexivity.
  - destruct (get_images_listing (with_fs d w)) as (images & Hget & _);
      [exact Hdir|].
    exists images. exact Hget.
Qed.

Lemma startup_makes_store_available_witness :
  files (fs bare_world) !! outputDir = None /\
  (outputDir ∉ dirs (fs bare_world)) /\
  exists images,
    get_images (with_fs (ensure_outputDir 9 (fs bare_world)) bare_world)
    = Json 200 (Images images).
Proof.
  assert (Hf : files (fs bare_world) !! outputDir = None) by reflexivity.
  split; [exact Hf|]. split.
  - apply (bool_decide_eq_false_1 (outputDir ∈ dirs (fs bare_world))).
    vm_compute. reflexivity.
  - exact (proj2 (proj2 (proj2 (startup_makes_store_available 9 bare_world Hf)))).
Defined.

Lemma get_has_char s : forall i c,
  String.get i s = Some c -> has_char c s = true.
Proof.
  induction s as [|x s IH]; intros i c; [discriminate|].
  destruct i as [|i]; simpl.
  - intros [= ->]. rewrite Ascii.eqb_refl. reflexivity.
  - intros Hg. rewrite (IH i c Hg). apply orb_true_r.
Qed.

(** Without a ['.'] in the path the scan of [extname] never finds the
    start of an extension. *)
Lemma extname_scan_no_dot s :
  has_char "." s = false ->
  forall n st, Path.startDot st = -1 ->
               Path.startDot (Path.extname_scan s n st) = -1.
Proof.
  intros Hs. induction n as [|n IH]; intros st Hst; [exact Hst|].
  cbn [Path.extname_scan].
  destruct (String.get n s) as [code|] eqn:Hg; [|exact Hst].
  destruct (Ascii.eqb code "/").
  - destruct (negb (Path.matchedSlash st)); [exact Hst | apply IH, Hst].
  - assert (Hcode : Ascii.eqb code "." = false).
    { apply Ascii.eqb_neq. intros ->.
      apply get_has_char in Hg. rewrite Hs in Hg. discriminate. }
    rewrite Hcode. apply IH.
    destruct (Path.end_ st =? -1); cbn [Path.startDot]; rewrite Hst;
      cbn [Z.eqb negb]; assumption || reflexivity.
Qed.

Lemma extname_no_dot s : has_char "." s = false -> Path.extname s = "".
Proof.
  intros Hs. unfold Path.extname.
  rewrite (extname_scan_no_dot s Hs) by reflexivity. reflexivity.
Qed.

Section NoExtension.
Context `{Canvas}.

(** X15: an upload whose original name has no ['.'] has no extension for
    the filter and is refused with "Only image files are allowed!",
    whatever its MIME type and its bytes; nothing is staged or decoded. *)
Theorem upload_without_extension_is_refused now p w :
  has_char "." (originalname p) = false ->
  post_process_image now (Some p) w
  = (Json 500 (Failure "Only image files are allowed!"), w).
Proof.
  intros Hdot. apply filter_rejects. unfold fileFilter.
  rewrite (extname_no_dot _ Hdot). apply andb_false_r.
Qed.

End NoExtension.

(** ** Runs of the further properties *)

Lemma upload_without_extension_is_refused_witness :
  has_char "." "photo" = false /\
  @post_process_image raw_canvas 5
    (Some {| originalname := "photo"; mimetype := "image/png"; bytes := red2x2 |})
    fresh_world
  = (Json 500 (Failure "Only image files are allowed!"), fresh_world).
Proof.
  split; [reflexivity|].
  exact (@upload_without_extension_is_refused raw_canvas 5
           {| originalname := "photo"; mimetype := "image/png"; bytes := red2x2 |}
           fresh_world eq_refl).
Defined.

Lemma accepted_upload_is_stored_as_grayscale_witness :
  is_success (fst (@post_process_image raw_canvas 5 (Some upload_a_png) fresh_world))
  = true /\
  exists img png,
    raw_decode (bytes upload_a_png) = Some img /\
    raw_encode (grayscale_image img) = Some png.
Proof.
  assert (Hs : is_success
            (fst (@post_process_image raw_canvas 5 (Some upload_a_png) fresh_world))
          = true) by (vm_compute; reflexivity).
  split; [exact Hs|].
  destruct (@accepted_upload_is_stored_as_grayscale raw_canvas 5 upload_a_png
              fresh_world _ _ (surjective_pairing _) Hs)
    as (img & png & _ & _ & Hdec & Henc & _).
  exists img, png. split; [exact Hdec | exact Henc].
Defined.

Lemma processed_image_is_listed_and_downloadable_witness :
  has_char "/" (originalname upload_a_png) = false /\
  exists name png,
    get_download name world_after_a_png = Download (store_key name) png.
Proof.
  split; [reflexivity|].
  assert (Hs : is_success
            (fst (@post_process_image raw_canvas 5 (Some upload_a_png) fresh_world))
          = true) by (vm_compute; reflexivity).
  destruct (@processed_image_is_listed_and_downloadable raw_canvas 5 upload_a_png
              fresh_world _ _ eq_refl (surjective_pairing _) Hs)
    as (name & _ & png & _ & _ & _ & _ & _ & Hdl & _).
  exists name, png. exact Hdl.
Defined.

Lemma undecodable_upload_stays_staged_witness :
  upload_single 5 (Some upload_corrupt) fresh_world
  = (inr (Some (staged upload_corrupt)), staged_world upload_corrupt) /\
  raw_decode (bytes upload_corrupt) = None /\
  content <$> files (fs (staged_world upload_corrupt)) !! path (staged upload_corrupt)
  = Some (bytes upload_corrupt).
Proof.
  assert (Hup : upload_single 5 (Some upload_corrupt) fresh_world
                = (inr (Some (staged upload_corrupt)), staged_world upload_corrupt))
    by (vm_compute; reflexivity).
  split; [exact Hup|]. split; [reflexivity|].
  exact (proj2 (@undecodable_upload_stays_staged raw_canvas 5 upload_corrupt
                  fresh_world _ _ Hup eq_refl)).
Defined.

Lemma upload_huge_size : fileSize_limit < Z.of_nat (length (bytes upload_huge)).
Proof.
  unfold upload_huge; cbn [bytes]. rewrite repeat_length, Z2Nat.id.
  - lia.
  - unfold fileSize_limit. lia.
Defined.

Lemma oversize_upload_is_refused_witness :
  fileFilter upload_huge = true /\
  fileSize_limit < Z.of_nat (length (bytes upload_huge)) /\
  exists w',
    @post_process_image raw_canvas 5 (Some upload_huge) fresh_world
    = (Json 400 (Failure "File too large. Maximum size is 10MB"), w') /\
    files (fs w') = files (fs fresh_world).
Proof.
  assert (Hf : fileFilter upload_huge = true) by reflexivity.
  split; [exact Hf|]. split; [exact upload_huge_size|].
  destruct (@oversize_upload_is_refused raw_canvas 5 upload_huge fresh_world
              Hf upload_huge_size) as (w' & Hpost & Hfiles & _).
  exists w'. split; [exact Hpost | exact Hfiles].
Defined.

Lemma listing_stays_available_witness :
  outputDir ∈ dirs (fs fresh_world) /\
  exists images, get_images world_after_a_png = Json 200 (Images images).
Proof.
  assert (Hdir : outputDir ∈ dirs (fs fresh_world)).
  { apply (bool_decide_eq_true_1 (outputDir ∈ dirs (fs fresh_world))).
    vm_compute. reflexivity. }
  split; [exact Hdir|].
  exact (proj2 (@listing_stays_available raw_canvas 5 (Some upload_a_png)
                  fresh_world _ _ Hdir (surjective_pairing _))).
Defined.

(** ** The extension of an ordinary file name, and the filter on it *)

Lemma get_app_r (a b : string) (j : nat) :
  String.get (String.length a + j) (a +:+ b) = String.get j b.
Proof. induction a as [|x a IH]; simpl; [reflexivity | exact IH]. Qed.

Lemma get_app_l (a b : string) (j : nat) :
  (j < String.length a)%nat -> String.get j (a +:+ b) = String.get j a.
Proof.
  revert j. induction a as [|x a IH]; intros j Hj; simpl in *; [lia|].
  destruct j as [|j]; [reflexivity|]. apply IH. lia.
Qed.

Lemma get_in_range (s : string) (j : nat) :
  (j < String.length s)%nat -> exists c, String.get j s = Some c.
Proof.
  revert j. induction s as [|x s IH]; intros j Hj; simpl in *; [lia|].
  destruct j as [|j]; [eauto|]. apply IH. lia.
Qed.

Lemma substring_all (b : string) : substring 0 (String.length b) b = b.
Proof. induction b as [|x b IH]; simpl; [reflexivity | rewrite IH; reflexivity]. Qed.

Lemma substring_app_r (a b : string) :
  substring (String.length a) (String.length b) (a +:+ b) = b.
Proof. induction a as [|x a IH]; simpl; [apply substring_all | exact IH]. Qed.

Lemma get_name_ext stem ext j :
  String.get (String.length stem + 1 + j) (stem +:+ String "." ext)
  = String.get j ext.
Proof. rewrite <- Nat.add_assoc, get_app_r. reflexivity. Qed.

Lemma char_not c s j x :
  has_char c s = false -> String.get j s = Some x -> Ascii.eqb x c = false.
Proof.
  intros Hs Hg. apply get_has_char in Hg.
  apply Ascii.eqb_neq. intros ->. congruence.
Qed.

(** While the scan reads the extension nothing changes. *)
Lemma scan_extension stem ext m :
  has_char "/" ext = false -> has_char "." ext = false ->
  (m <= String.length ext)%nat ->
  let len := Z.of_nat (String.length stem + 1 + String.length ext) in
  Path.extname_scan (stem +:+ String "." ext) (String.length stem + 1 + m)
    (in_extension len)
  = Path.extname_scan (stem +:+ String "." ext) (String.length stem + 1)
      (in_extension len).
Proof.
  intros Hslash Hdot. induction m as [|m IH]; intros Hm len;
    [rewrite Nat.add_0_r; reflexivity|].
  rewrite Nat.add_succ_r. cbn [Path.extname_scan].
  rewrite get_name_ext.
  destruct (get_in_range ext m ltac:(lia)) as [c Hc]. rewrite Hc.
  rewrite (char_not "/" ext m c Hslash Hc), (char_not "." ext m c Hdot Hc).
  replace (Path.end_ (in_extension len) =? -1) with false
    by (symmetry; apply Z.eqb_neq; unfold in_extension, len; cbn; lia).
  cbn [Path.startDot in_extension Z.eqb negb]. apply IH. lia.
Qed.

(** While the scan reads the stem, the start and the end of the extension
    stay, and a character has been seen before the dot. *)
Lemma scan_stem stem ext n : forall st,
  has_char "/" stem = false ->
  (n <= String.length stem)%nat ->
  Path.startDot st = Z.of_nat (String.length stem) ->
  Path.end_ st <> -1 ->
  (0 < n)%nat \/ Path.preDotState st <> 0 ->
  Path.startDot (Path.extname_scan (stem +:+ String "." ext) n st)
  = Z.of_nat (String.length stem) /\
  Path.end_ (Path.extname_scan (stem +:+ String "." ext) n st) = Path.end_ st /\
  Path.preDotState (Path.extname_scan (stem +:+ String "." ext) n st) <> 0.
Proof.
  induction n as [|n IH]; intros st Hslash Hn Hdot Hend Hpre.
  - destruct Hpre as [Hpre|Hpre]; [lia|]. repeat split; assumption.
  - cbn [Path.extname_scan].
    destruct (get_in_range (stem +:+ String "." ext) n) as [c Hc].
    { rewrite string_length_app. lia. }
    rewrite Hc.
    assert (Hcs : Ascii.eqb c "/" = false).
    { rewrite get_app_l in Hc by lia. exact (char_not "/" stem n c Hslash Hc). }
    rewrite Hcs.
    replace (Path.end_ st =? -1) with false
      by (symmetry; apply Z.eqb_neq; exact Hend).
    replace (Path.startDot st =? -1) with false
      by (symmetry; apply Z.eqb_neq; rewrite Hdot; lia).
    cbn [negb].
    match goal with
    | |- context [Path.extname_scan _ n ?st2] =>
        assert (H2 : Path.startDot st2 = Z.of_nat (String.length stem) /\
                     Path.end_ st2 = Path.end_ st /\
                     Path.preDotState st2 <> 0);
          [|destruct H2 as (Hd2 & He2 & Hp2);
            destruct (IH st2 Hslash ltac:(lia) Hd2 ltac:(rewrite He2; exact Hend)
                        (or_intror Hp2)) as (R1 & R2 & R3);
            rewrite R2, He2; repeat split; assumption]
    end.
    destruct (Ascii.eqb c "."); [|repeat split; try assumption; cbn; discriminate].
    destruct (Path.preDotState st =? 1) eqn:H1; cbn [negb];
      [|repeat split; try assumption; cbn; discriminate].
    apply Z.eqb_eq in H1. repeat split; try assumption. rewrite H1. discriminate.
Qed.

(** [path.extname] of [stem.ext] is [.ext]. *)
Lemma extname_stem_ext stem ext :
  stem <> "" -> has_char "/" stem = false ->
  ext <> "" -> has_char "/" ext = false -> has_char "." ext = false ->
  Path.extname (stem +:+ String "." ext) = String "." ext.
Proof.
  intros Hstem Hsslash Hext Heslash Hedot. unfold Path.extname.
  assert (Hlen : String.length (stem +:+ String "." ext)
                 = (String.length stem + 1 + String.length ext)%nat).
  { rewrite string_length_app. simpl. lia. }
  rewrite Hlen.
  destruct (String.length ext) as [|m] eqn:Hm;
    [destruct ext; [congruence | discriminate]|].
  rewrite Nat.add_succ_r. cbn [Path.extname_scan].
  rewrite get_name_ext.
  destruct (get_in_range ext m ltac:(lia)) as [c Hc]. rewrite Hc.
  rewrite (char_not "/" ext m c Heslash Hc), (char_not "." ext m c Hedot Hc).
  cbn [Path.end_ Path.startDot Path.startPart Path.matchedSlash
       Path.preDotState Z.eqb Pos.eqb negb].
  set (len := Z.of_nat (String.length stem + 1 + m) + 1).
  fold (in_extension len).
  assert (Hlen' : len = Z.of_nat (String.length stem + 1 + String.length ext))
    by (unfold len; lia).
  rewrite Hlen'.
  rewrite (scan_extension stem ext m Heslash Hedot) by lia.
  rewrite <- Hlen'.
  rewrite Nat.add_1_r. cbn [Path.extname_scan].
  assert (Hdot : String.get (String.length stem) (stem +:+ String "." ext)
                 = Some "."%char).
  { rewrite <- (Nat.add_0_r (String.length stem)) at 1.
    rewrite get_app_r. reflexivity. }
  rewrite Hdot.
  change (Ascii.eqb "." "/") with false. change (Ascii.eqb "." ".") with true.
  replace (Path.end_ (in_extension len) =? -1) with false
    by (symmetry; apply Z.eqb_neq; unfold in_extension, len; cbn; lia).
  cbn [Path.startDot in_extension Z.eqb Pos.eqb Path.startPart Path.end_
       Path.matchedSlash Path.preDotState].
  match goal with
  | |- context [Path.extname_scan _ (String.length stem) ?st] =>
      destruct (scan_stem stem ext (String.length stem) st Hsslash)
        as (Hsd & Hse & Hsp);
        [lia | reflexivity | cbn; unfold len; lia | left |
         set (final := Path.extname_scan _ (String.length stem) st) in * ]
  end.
  { destruct stem; [congruence | simpl; lia]. }
  cbn [Path.end_] in Hse. rewrite Hsd, Hse.
  replace (Z.of_nat (String.length stem) =? -1) with false
    by (symmetry; apply Z.eqb_neq; lia).
  replace (len =? -1) with false
    by (symmetry; apply Z.eqb_neq; unfold len; lia).
  replace (Path.preDotState final =? 0) with false
    by (symmetry; apply Z.eqb_neq; exact Hsp).
  replace (Z.of_nat (String.length stem) =? len - 1) with false
    by (symmetry; apply Z.eqb_neq; unfold len; lia).
  rewrite andb_false_r. cbn [orb andb].
  unfold JSString.slice. rewrite Hlen', !Nat2Z.id.
  replace (String.length stem + 1 + String.length ext - String.length stem)%nat
    with (String.length (String "." ext)) by (simpl; lia).
  apply substring_app_r.
Qed.

Lemma has_slash_toLowerCase s :
  has_char "/" (JSString.toLowerCase s) = has_char "/" s.
Proof.
  induction s as [|y s IH]; [reflexivity|].
  simpl. rewrite lower_char_slash, IH. reflexivity.
Qed.

Lemma has_dot_toLowerCase s :
  has_char "." (JSString.toLowerCase s) = has_char "." s.
Proof.
  induction s as [|y s IH]; [reflexivity|].
  simpl. rewrite lower_char_dot, IH. reflexivity.
Qed.

(** X16: an upload called [stem.ext], where [stem] is not empty and has no
    ['/'], [ext] is jpg, jpeg, png or gif in any letter case, and the MIME
    type is [image/jpeg], [image/png] or [image/gif], passes the filter,
    whether or not the extension and the MIME type name the same
    format. *)
Theorem image_upload_passes_filter (stem ext mime : string) (b : list Z) :
  stem <> "" -> has_char "/" stem = false ->
  In (JSString.toLowerCase ext) ["jpg"; "jpeg"; "png"; "gif"] ->
  In mime ["image/jpeg"; "image/png"; "image/gif"] ->
  fileFilter {| originalname := stem +:+ "." +:+ ext; mimetype := mime;
                bytes := b |} = true.
Proof.
  intros Hstem Hslash Hext Hmime. unfold fileFilter. cbn [originalname mimetype].
  assert (Hprops : ext <> "" /\ has_char "/" ext = false /\ has_char "." ext = false).
  { rewrite <- has_slash_toLowerCase, <- has_dot_toLowerCase.
    split; [intros ->; simpl in Hext; intuition discriminate|].
    simpl in Hext.
    destruct Hext as [<-|[<-|[<-|[<-|[]]]]]; split; reflexivity. }
  destruct Hprops as (Hne & Hes & Hed).
  change ("." +:+ ext) with (String "." ext).
  rewrite (extname_stem_ext stem ext Hstem Hslash Hne Hes Hed).
  change (JSString.toLowerCase (String "." ext))
    with (String "." (JSString.toLowerCase ext)).
  assert (He : allowedTypes_test (String "." (JSString.toLowerCase ext)) = true).
  { simpl in Hext. destruct Hext as [<-|[<-|[<-|[<-|[]]]]]; reflexivity. }
  assert (Hm : allowedTypes_test mime = true).
  { simpl in Hmime. destruct Hmime as [<-|[<-|[<-|[]]]]; reflexivity. }
  rewrite He, Hm. reflexivity.
Qed.

Lemma image_upload_passes_filter_witness :
  "photo" <> "" /\ has_char "/" "photo" = false /\
  fileFilter {| originalname := "photo.JPG"; mimetype := "image/png";
                bytes := red2x2 |} = true.
Proof.
  assert (H1 : "photo" <> "") by discriminate.
  split; [exact H1|]. split; [reflexivity|].
  exact (image_upload_passes_filter "photo" "JPG" "image/png" red2x2 H1 eq_refl
           (or_introl eq_refl) (or_intror (or_introl eq_refl))).
Defined.
